(** * Fleet live tracker: the fetch / rank / select pipeline

    A shallow embedding of [fleet_live_tracker.py].  The script is a
    straight-line Streamlit page: it reads the browser location, reads an
    uploaded spreadsheet, fetches one tracking document per vehicle on a
    thread pool, ranks the answers by geodesic distance and shows the
    nearest thirty.

    What the script calls from libraries is kept abstract: Python's
    [float], the f-string float formatting, geopy's [geodesic] (which may
    raise), the type inference of [pd.DataFrame] and pandas' [sort_values]
    are variables of the model.  What the script itself does (control flow,
    exception handling, string splitting, accumulation of results,
    truncation) is written out. *)

From Stdlib Require Import ZArith String Ascii List Sorted Permutation Lia.
From stdpp Require Import base option list sorting strings pretty gmap.

Local Open Scope Z_scope.
Local Open Scope string_scope.
Local Open Scope list_scope.
Local Open Scope stdpp_scope.

(** ** Python data *)

(** A decoded JSON document, as [response.json()] returns it: [None],
    [bool], [int], [float], [str], [list], [dict]. *)
#[local] Unset Elimination Schemes.
Inductive json (Float : Type) : Type :=
| JNull
| JBool (b : bool)
| JInt (z : Z)
| JFloat (f : Float)
| JStr (s : string)
| JArr (l : list (json Float))
| JObj (m : gmap string (json Float)).
#[local] Set Elimination Schemes.

Arguments JNull {Float}.
Arguments JBool {Float} b.
Arguments JInt {Float} z.
Arguments JFloat {Float} f.
Arguments JStr {Float} s.
Arguments JArr {Float} l.
Arguments JObj {Float} m.

(** The exceptions the script can meet. *)
Inductive exn : Type :=
| RequestException   (* timeout, connection error *)
| JSONDecodeError
| TypeError
| KeyError
| AttributeError
| ValueError
| ExcelReadError.

(** The dict that [fetch_live] returns. *)
Record VehicleRecord (Float : Type) : Type := mkRecord {
  VIN : string;
  Latitude : Float;
  Longitude : Float;
  Battery : json Float;
  Last_Updated : json Float
}.

Arguments mkRecord {Float}.
Arguments VIN {Float}.
Arguments Latitude {Float}.
Arguments Longitude {Float}.
Arguments Battery {Float}.
Arguments Last_Updated {Float}.

(** A row of [live_df] once the column "Distance (km)" is assigned. *)
Record RankedRow (Float : Type) : Type := mkRow {
  record : VehicleRecord Float;
  Distance_km : Float
}.

Arguments mkRow {Float}.
Arguments record {Float}.
Arguments Distance_km {Float}.

(** ** The HTTP collaborator *)

Record Response (Float : Type) : Type := mkResponse {
  status_code : Z;
  (** [response.json()]: [None] when the body does not decode. *)
  body : option (json Float)
}.

Arguments mkResponse {Float}.
Arguments status_code {Float}.
Arguments body {Float}.

(** [requests.get(url, timeout=10)] either raises or returns a response. *)
Inductive get_result (Float : Type) : Type :=
| GetRaises
| GetReturns (r : Response Float).

Arguments GetRaises {Float}.
Arguments GetReturns {Float} r.

(** ** Worker tasks: a log of the requests issued, and a value or an
    exception. *)
Definition Task (A : Type) : Type := (list string * (exn + A))%type.

Definition task_ret {A} (a : A) : Task A := ([], inr a).

Definition task_raise {A} (e : exn) : Task A := ([], inl e).

Definition task_bind {A B} (m : Task A) (k : A → Task B) : Task B :=
  match m with
  | (w, inl e) => (w, inl e)
  | (w, inr a) => let '(w', r) := k a in (w ++ w', r)
  end.

#[global] Instance Task_ret : MRet Task := @task_ret.
#[global] Instance Task_bind : MBind Task := λ A B k m, task_bind m k.

(** [try: body  except: handler] with a bare [except]. *)
Definition try_except {A} (body : Task A) (handler : Task A) : Task A :=
  match body with
  | (w, inl _) => let '(w', r) := handler in (w ++ w', r)
  | (w, inr a) => (w, inr a)
  end.

(** [s.split(sep)] for a one-character separator: never the empty list. *)
Fixpoint str_split (sep : ascii) (s : string) : list string :=
  match s with
  | EmptyString => [EmptyString]
  | String c s' =>
      if Ascii.eqb c sep then EmptyString :: str_split sep s'
      else match str_split sep s' with
           | [] => [String c EmptyString]
           | p :: ps => String c p :: ps
           end
  end.

Definition comma : ascii := ","%char.

Definition track_url (vin : string) : string :=
  "https://y-ui.olacabs.com/track/" +:+ vin.

Section Fetch.
Context {Float : Type}.

(** Python's [float(s)]: [None] stands for [ValueError]. *)
Variable float_of_str : string → option Float.

(** The network the run talks to. *)
Variable network : string → get_result Float.

Definition requests_get (url : string) : Task (Response Float) :=
  ([url],
   match network url with
   | GetRaises => inl RequestException
   | GetReturns r => inr r
   end).

Definition response_json (r : Response Float) : Task (json Float) :=
  match body r with
  | None => task_raise JSONDecodeError
  | Some d => mret d
  end.

(** [data[key]] for a string key. *)
Definition getitem (data : json Float) (key : string) : Task (json Float) :=
  match data with
  | JObj m =>
      match m !! key with
      | Some v => mret v
      | None => task_raise KeyError
      end
  | _ => task_raise TypeError
  end.

(** [data.get(key)]. *)
Definition dict_get (data : json Float) (key : string) : Task (json Float) :=
  match data with
  | JObj m => mret (default JNull (m !! key))
  | _ => task_raise AttributeError
  end.

(** [v.split(",")]. *)
Definition split_comma (v : json Float) : Task (list string) :=
  match v with
  | JStr s => mret (str_split comma s)
  | _ => task_raise AttributeError
  end.

Definition float (s : string) : Task Float :=
  match float_of_str s with
  | Some x => mret x
  | None => task_raise ValueError
  end.

(** [lat, lon = map(float, parts)]: the iterator is consumed item by
    item; a missing second item or a present third one is a
    [ValueError]. *)
Definition unpack_two_floats (parts : list string) : Task (Float * Float) :=
  match parts with
  | [] => task_raise ValueError
  | a :: rest =>
      lat ← float a;
      match rest with
      | [] => task_raise ValueError
      | b :: rest' =>
          lon ← float b;
          match rest' with
          | [] => mret (lat, lon)
          | c :: _ => _ ← float c; task_raise ValueError
          end
      end
  end.

Definition fetch_live (vin : string) : Task (option (VehicleRecord Float)) :=
  try_except
    (let url := track_url vin in
     response ← requests_get url;
     if bool_decide (status_code response ≠ 200) then mret None else
     data ← response_json response;
     location ← getitem data "location";
     parts ← split_comma location;
     '(lat, lon) ← unpack_two_floats parts;
     battery ← dict_get data "batteryCharge";
     updated ← dict_get data "lastUpdated";
     mret (Some {| VIN := vin;
                   Latitude := lat;
                   Longitude := lon;
                   Battery := battery;
                   Last_Updated := updated |}))
    (mret None).

End Fetch.

(** ** The page: what is shown, what goes on the wire, how the run ends *)

Inductive marker (Float : Type) : Type :=
| UserMarker (lat lon : Float)              (* popup "You", blue icon *)
| VehicleMarker (row : RankedRow Float).    (* popup built from the row, green icon *)

Arguments UserMarker {Float} lat lon.
Arguments VehicleMarker {Float} row.

Inductive ui_event (Float : Type) : Type :=
| Title (text : string)
| Warning (text : string)
| Success (text : string)
| Info (text : string)
| Error (text : string)
| Subheader (text : string)
| Progress (num den : nat)                  (* the bar at [num / den] *)
| Dataframe (rows : list (RankedRow Float))
| Folium (markers : list (marker Float)).

Arguments Title {Float} text.
Arguments Warning {Float} text.
Arguments Success {Float} text.
Arguments Info {Float} text.
Arguments Error {Float} text.
Arguments Subheader {Float} text.
Arguments Progress {Float} num den.
Arguments Dataframe {Float} rows.
Arguments Folium {Float} markers.

(** [st.stop()] ends the run quietly; an uncaught exception ends it with a
    traceback. *)
Inductive halt : Type :=
| Stopped
| Crashed (e : exn).

(** The main thread writes [screen]; the pool's workers write [wire], which
    lists the requested URLs in submission order. *)
Record Log (Float : Type) : Type := mkLog {
  screen : list (ui_event Float);
  wire : list string
}.

Arguments mkLog {Float}.
Arguments screen {Float}.
Arguments wire {Float}.

Definition log_app {Float} (a b : Log Float) : Log Float :=
  {| screen := screen a ++ screen b; wire := wire a ++ wire b |}.

Definition Script (Float A : Type) : Type := (Log Float * (halt + A))%type.

Definition script_ret {Float A} (a : A) : Script Float A :=
  (mkLog [] [], inr a).

Definition script_bind {Float A B}
    (m : Script Float A) (k : A → Script Float B) : Script Float B :=
  match m with
  | (w, inl h) => (w, inl h)
  | (w, inr a) => let '(w', r) := k a in (log_app w w', r)
  end.

#[global] Instance Script_ret {Float} : MRet (Script Float) := @script_ret Float.
#[global] Instance Script_bind {Float} : MBind (Script Float) :=
  λ A B k m, script_bind m k.

Definition show {Float} (e : ui_event Float) : Script Float unit :=
  (mkLog [e] [], inr ()).

Definition st_stop {Float A} : Script Float A := (mkLog [] [], inl Stopped).

Definition raise {Float A} (e : exn) : Script Float A :=
  (mkLog [] [], inl (Crashed e)).

(** ** The spreadsheet *)

(** A frame maps a column label to its cells; the cells are text and an
    empty cell is [None]. *)
Abbreviation DataFrame := (gmap string (list (option string))).

(** What [st.file_uploader] hands over, seen through [pd.read_excel]. *)
Inductive upload : Type :=
| Unreadable
| Workbook (df : DataFrame).

Definition pd_read_excel {Float} (f : upload) : Script Float DataFrame :=
  match f with
  | Unreadable => raise ExcelReadError
  | Workbook df => mret df
  end.

(** [Series.dropna()]. *)
Definition dropna (col : list (option string)) : list string := omap id col.

(** [Series.unique()]: first occurrences, in order of appearance. *)
Fixpoint unique_from (seen : gset string) (l : list string) : list string :=
  match l with
  | [] => []
  | x :: l' =>
      if decide (x ∈ seen) then unique_from seen l'
      else x :: unique_from ({[x]} ∪ seen) l'
  end.

Definition unique (l : list string) : list string := unique_from ∅ l.

(** ** The inputs of one run *)

Record Env (Float : Type) : Type := mkEnv {
  (** [get_geolocation()], reduced to its coordinates. *)
  geolocation : option (Float * Float);
  (** [st.file_uploader(...)]. *)
  uploaded : option upload;
  (** the tracking service *)
  network : string → get_result Float;
  (** the order in which [n] submitted futures complete, as indices *)
  completion : nat → list nat
}.

Arguments mkEnv {Float}.
Arguments geolocation {Float}.
Arguments uploaded {Float}.
Arguments network {Float}.
Arguments completion {Float}.

(** The scheduler hands every future over exactly once. *)
Definition fair {Float} (env : Env Float) : Prop :=
  ∀ n, completion env n ≡ₚ seq 0 n.

Section Page.
Context {Float : Type}.

Variable float_of_str : string → option Float.

(** [f"{x:.6f}"] and the like: digits after the point, then the value. *)
Variable format_fixed : nat → Float → string.

(** [geodesic(a, b).km]; [None] stands for the [ValueError] geopy raises
    for a point it refuses: a latitude outside [-90, 90], a coordinate that
    is not finite. *)
Variable geodesic_km : Float * Float → Float * Float → option Float.

(** The type inference [pd.DataFrame] runs on a column of Python objects:
    the cells it ends up holding, in order ([None] beside numbers becomes
    NaN and an [int] beside it a float; a column of text stays as it is). *)
Variable infer_dtype : list (json Float) → list (json Float).

(** [DataFrame.sort_values("Distance (km)")] as the script calls it, with
    every other argument at its default: ascending, [kind='quicksort'].
    The frame is seen as the list of its rows.  Nothing is assumed of this
    function here; what pandas promises of it is [sorts_ascending] below. *)
Variable sort_values : list (RankedRow Float) → list (RankedRow Float).

Abbreviation Future := (exn + option (VehicleRecord Float))%type.

(** [{executor.submit(fetch_live, vin): vin for vin in VIN_LIST}]:
    every task runs to its end; the futures keep submission order. *)
Definition submit_all (net : string → get_result Float)
    (vins : list string) : Script Float (list Future) :=
  let tasks := fetch_live float_of_str net <$> vins in
  (mkLog [] (concat (fst <$> tasks)), inr (snd <$> tasks)).

Definition as_completed (env : Env Float) (futures : list Future)
    : list Future :=
  omap (λ i, futures !! i) (completion env (length futures)).

(** [future.result()] re-raises what the task raised. *)
Definition future_result (f : Future)
    : Script Float (option (VehicleRecord Float)) :=
  match f with
  | inl e => raise e
  | inr r => mret r
  end.

(** The body of [for i, future in enumerate(as_completed(...))]. *)
Fixpoint collect (total i : nat) (futures : list Future)
    (results : list (VehicleRecord Float))
    : Script Float (list (VehicleRecord Float)) :=
  match futures with
  | [] => mret results
  | future :: rest =>
      result ← future_result future;
      let results :=
        match result with
        | Some r => results ++ [r]
        | None => results
        end in
      show (Progress (i + 1) total);;
      collect total (S i) rest results
  end.

(** [pd.DataFrame(results)]: one row per record, in order.  "VIN" is a
    column of text and "Latitude" and "Longitude" are columns of floats,
    which the frame holds as they are; "Battery" and "Last Updated" hold
    whatever the JSON held and go through the inference, cell by cell. *)
Definition pd_DataFrame (results : list (VehicleRecord Float))
    : list (VehicleRecord Float) :=
  let battery := infer_dtype (Battery <$> results) in
  let updated := infer_dtype (Last_Updated <$> results) in
  imap (λ i r, {| VIN := VIN r;
                  Latitude := Latitude r;
                  Longitude := Longitude r;
                  Battery := default (Battery r) (battery !! i);
                  Last_Updated := default (Last_Updated r) (updated !! i) |})
       results.

(** The lambda of [live_df.apply(..., axis=1)] on one row; [None] when
    [geodesic] raises. *)
Definition with_distance (user : Float * Float) (r : VehicleRecord Float)
    : option (RankedRow Float) :=
  d ← geodesic_km user (Latitude r, Longitude r);
  Some {| record := r; Distance_km := d |}.

(** The Ranker: assign the distance column row by row, sort on it, keep
    thirty.  [None] is the [ValueError] of a row [geodesic] refuses, which
    nothing catches. *)
Definition rank (user : Float * Float)
    (live_df : list (VehicleRecord Float)) : option (list (RankedRow Float)) :=
  live_df ← mapM (with_distance user) live_df;
  let live_df := sort_values live_df in
  Some (take 30 live_df).

(** The block headed PARALLEL FETCH; [st.progress(0)] is the bar at 0/1. *)
Definition fetch_all (env : Env Float) (VIN_LIST : list string)
    : Script Float (list (VehicleRecord Float)) :=
  show (Info "Fetching live vehicle data...");;
  show (Progress 0 1);;
  let total := length VIN_LIST in
  future_to_vin ← submit_all (network env) VIN_LIST;
  collect total 0 (as_completed env future_to_vin) [].

(** The page from top to bottom ([st.set_page_config] leaves no trace
    here). *)
Definition script (env : Env Float) : Script Float unit :=
  show (Title "🚗 Ola Fleet Live Tracker");;
  '(USER_LAT, USER_LON) ←
    match geolocation env with
    | None =>
        show (Warning "📍 Please allow location access and refresh.");;
        st_stop
    | Some coords => mret coords
    end;
  show (Success ("📍 Your Location: " +:+ format_fixed 6 USER_LAT
                 +:+ ", " +:+ format_fixed 6 USER_LON));;
  file ←
    match uploaded env with
    | None => show (Info "Upload Excel file to start tracking.");; st_stop
    | Some f => mret f
    end;
  df ← pd_read_excel file;
  column ←
    match df !! "vehicleId" with
    | None => show (Error "Excel must contain 'vehicleId' column");; st_stop
    | Some c => mret c
    end;
  let VIN_LIST := unique (dropna column) in
  results ← fetch_all env VIN_LIST;
  (if decide (length results = 0%nat)
   then show (Error "No live data received.");; st_stop
   else mret ());;
  let live_df := pd_DataFrame results in
  TOP ←
    match rank (USER_LAT, USER_LON) live_df with
    | None => raise ValueError
    | Some rows => mret rows
    end;
  show (Subheader "📋 Top 30 Nearest Vehicles");;
  show (Dataframe TOP);;
  show (Subheader "🗺 Vehicle Map");;
  show (Folium (UserMarker USER_LAT USER_LON :: (VehicleMarker <$> TOP)));;
  show (Success "✅ Live tracking complete").

End Page.

(** ** The order the Ranker works with *)

Section Order.
Context {Float : Type}.

(** The ascending order [sort_values] puts the distance column in (for
    Python floats: [<=], with NaN after everything else). *)
Variable float_le : relation Float.
Context `{!∀ x y, Decision (float_le x y)}.

Definition by_distance : relation (RankedRow Float) :=
  λ a b, float_le (Distance_km a) (Distance_km b).

#[global] Instance by_distance_dec a b : Decision (by_distance a b).
Proof. unfold by_distance. apply _. Defined.

(** What pandas documents for every [kind] of [sort_values]: the rows come
    back rearranged, in ascending order of the key. *)
Definition sorts_ascending
    (sort : list (RankedRow Float) → list (RankedRow Float)) : Prop :=
  ∀ l, sort l ≡ₚ l ∧ Sorted by_distance (sort l).

(** Insertion sort, used to run the model. *)
Fixpoint insert_row (x : RankedRow Float) (l : list (RankedRow Float))
    : list (RankedRow Float) :=
  match l with
  | [] => [x]
  | y :: l' =>
      if decide (by_distance x y) then x :: y :: l'
      else y :: insert_row x l'
  end.

Fixpoint insertion_sort (l : list (RankedRow Float)) : list (RankedRow Float) :=
  match l with
  | [] => []
  | x :: l' => insert_row x (insertion_sort l')
  end.

End Order.

(** ** A small instance of the collaborators, to run the model on examples

    Coordinates are integers counting millionths of a degree; the distance
    is the taxicab one.  Only the shape matters here. *)

Module Demo.

Definition digit_of (c : ascii) : option Z :=
  let n := nat_of_ascii c in
  if bool_decide (48 ≤ n ≤ 57)%nat then Some (Z.of_nat n - 48) else None.

Fixpoint digits_value (s : string) (acc : Z) : option Z :=
  match s with
  | EmptyString => Some acc
  | String c s' =>
      match digit_of c with
      | Some d => digits_value s' (10 * acc + d)
      | None => None
      end
  end.

Definition unsigned_of_str (s : string) : option Z :=
  match str_split "."%char s with
  | [whole] =>
      if decide (whole = "") then None
      else (λ w, w * 1000000) <$> digits_value whole 0
  | [whole; frac] =>
      if decide (whole = "") then None
      else
        match digits_value whole 0, digits_value frac 0 with
        | Some w, Some f =>
            let k := String.length frac in
            if bool_decide (k ≤ 6)%nat
            then Some (w * 1000000 + f * 10 ^ Z.of_nat (6 - k))
            else Some (w * 1000000 + f / 10 ^ Z.of_nat (k - 6))
        | _, _ => None
        end
  | _ => None
  end.

Definition float_of_str (s : string) : option Z :=
  match s with
  | String "-"%char s' => Z.opp <$> unsigned_of_str s'
  | _ => unsigned_of_str s
  end.

Definition format_fixed (_ : nat) (x : Z) : string := pretty x.

(** The taxicab distance.  As geopy does, it refuses a latitude outside
    [-90, 90] (here in millionths of a degree). *)
Definition geodesic_km (a b : Z * Z) : option Z :=
  if bool_decide (Z.abs a.1 ≤ 90000000 ∧ Z.abs b.1 ≤ 90000000)%Z
  then Some (Z.abs (a.1 - b.1) + Z.abs (a.2 - b.2))
  else None.

Definition is_number (v : json Z) : bool :=
  match v with JInt _ | JFloat _ => true | _ => false end.

Definition is_gap (v : json Z) : bool :=
  match v with JNull => true | _ => false end.

(** A column of numbers with gaps becomes a column of floats, whole
    numbers included; the gaps stay gaps (the instance has no NaN).  Any
    other column stays as it is. *)
Definition infer_dtype (cells : list (json Z)) : list (json Z) :=
  if forallb (λ v, is_number v || is_gap v) cells
     && existsb is_number cells && existsb is_gap cells
  then (λ v, match v with JInt n => JFloat (n * 1000000) | _ => v end)
         <$> cells
  else cells.

Definition sort_values : list (RankedRow Z) → list (RankedRow Z) :=
  insertion_sort Z.le.

(** A tracking service with a few vehicles: two parked at one depot, one
    elsewhere with all its fields, four whose answers are no good, and one
    that reports a latitude of 91 degrees. *)
Definition reply (code : Z) (doc : json Z) : get_result Z :=
  GetReturns {| status_code := code; body := Some doc |}.

Definition depot : json Z := JObj {[ "location" := JStr "12.90,77.60" ]}.

Definition on_the_road : json Z :=
  JObj (<[ "location" := JStr "13.00,77.50" ]>
        (<[ "batteryCharge" := JInt 80 ]>
         {[ "lastUpdated" := JStr "2024-05-01 10:00" ]})).

Definition service (url : string) : get_result Z :=
  if decide (url = track_url "V1") then reply 200 depot
  else if decide (url = track_url "V2") then reply 200 depot
  else if decide (url = track_url "V3") then
    GetReturns {| status_code := 404; body := None |}
  else if decide (url = track_url "V4") then
    reply 200 (JObj {[ "location" := JStr "north,east" ]})
  else if decide (url = track_url "V5") then
    reply 200 (JObj {[ "location" := JStr "12.90,77.60,5" ]})
  else if decide (url = track_url "V6") then reply 201 depot
  else if decide (url = track_url "V7") then reply 200 on_the_road
  else if decide (url = track_url "V8") then
    reply 200 (JObj {[ "location" := JStr "91.0,77.60" ]})
  else GetRaises.

Definition here : Z * Z := (12900000, 77600000).

Definition sheet (cells : list (option string)) : DataFrame :=
  {[ "vehicleId" := cells ]}.

Definition env (file : option upload) : Env Z :=
  {| geolocation := Some here;
     uploaded := file;
     network := service;
     completion := λ n, seq 0 n |}.

Definition run (file : option upload) : Script Z unit :=
  script float_of_str format_fixed geodesic_km infer_dtype sort_values
    (env file).

Definition parked (vin : string) : VehicleRecord Z :=
  {| VIN := vin;
     Latitude := 12900000;
     Longitude := 77600000;
     Battery := JNull;
     Last_Updated := JNull |}.

(** [n] vehicles at [n] different distances from [here], the farthest
    first. *)
Definition fleet (n : nat) : list (VehicleRecord Z) :=
  (λ k, {| VIN := "V" +:+ pretty k;
           Latitude := 12900000 + 1000 * Z.of_nat (n - k);
           Longitude := 77600000;
           Battery := JNull;
           Last_Updated := JNull |}) <$> seq 0 n.

End Demo.

(** ** Vocabulary of the statements *)

Section Vocabulary.
Context {Float : Type}.

Variable float_of_str : string → option Float.

(** The text under "location" when the document is a dict holding a
    string there. *)
Definition location_text (d : json Float) : option string :=
  match d with
  | JObj m =>
      match m !! "location" with
      | Some (JStr s) => Some s
      | _ => None
      end
  | _ => None
  end.

Definition non_2xx (r : Response Float) : Prop :=
  ¬ (200 ≤ status_code r < 300).

(** The body does not decode, or decodes to something without a location
    string. *)
Definition malformed_body (r : Response Float) : Prop :=
  match body r with
  | None => True
  | Some d => location_text d = None
  end.

(** Some comma-separated part of the location is not a number. *)
Definition non_numeric_location (r : Response Float) : Prop :=
  ∃ d s p, body r = Some d ∧ location_text d = Some s ∧
           p ∈ str_split comma s ∧ float_of_str p = None.

(** What [future.result()] yields for the task of [vin]. *)
Definition fetched (net : string → get_result Float) (vin : string)
    : option (VehicleRecord Float) :=
  match (fetch_live float_of_str net vin).2 with
  | inr r => r
  | inl _ => None
  end.

(** The submitted identifiers in the order their futures complete. *)
Definition completed (env : Env Float) (vins : list string) : list string :=
  omap (λ i, vins !! i) (completion env (length vins)).

(** The list [results] once the loop is over. *)
Definition collected (env : Env Float) (vins : list string)
    : list (VehicleRecord Float) :=
  omap (fetched (network env)) (completed env vins).

(** The bar after each of [n] completions, counting from [i]. *)
Definition progress_bars (total i n : nat) : list (ui_event Float) :=
  (λ k, Progress (k + 1) total) <$> seq i n.

(** What the page shows up to the end of the fetch loop. *)
Definition page_head (format_fixed : nat → Float → string)
    (env : Env Float) (lat lon : Float) (vins : list string)
    : list (ui_event Float) :=
  [Title "🚗 Ola Fleet Live Tracker";
   Success ("📍 Your Location: " +:+ format_fixed 6%nat lat
            +:+ ", " +:+ format_fixed 6%nat lon);
   Info "Fetching live vehicle data...";
   Progress 0 1]
  ++ progress_bars (length vins) 0 (length (completed env vins)).

Definition is_error (e : ui_event Float) : Prop :=
  match e with Error _ => True | _ => False end.

Definition is_rendering (e : ui_event Float) : Prop :=
  match e with Dataframe _ | Folium _ => True | _ => False end.

#[global] Instance is_error_dec e : Decision (is_error e).
Proof. destruct e; simpl; apply _. Defined.

#[global] Instance is_rendering_dec e : Decision (is_rendering e).
Proof. destruct e; simpl; apply _. Defined.

End Vocabulary.

(** ** Vocabulary of the further statements *)

(** The character occurs nowhere in the text. *)
Fixpoint free_of (c : ascii) (s : string) : Prop :=
  match s with
  | EmptyString => True
  | String c' s' => c' ≠ c ∧ free_of c s'
  end.

Definition is_progress {Float} (e : ui_event Float) : Prop :=
  match e with Progress _ _ => True | _ => False end.

#[global] Instance is_progress_dec {Float} (e : ui_event Float) :
  Decision (is_progress e).
Proof. destruct e; simpl; apply _. Defined.

(** The identifiers of a list whose fetch gives a record. *)
Definition answered {Float} (float_of_str : string → option Float)
    (net : string → get_result Float) (vins : list string)
    : list (VehicleRecord Float) :=
  omap (fetched float_of_str net) vins.

(** * Facts *)

(** ** Sorting rows by distance *)

Section OrderFacts.
Context {Float : Type} (float_le : relation Float).
Context `{!∀ x y, Decision (float_le x y)}.
Context `{!Total float_le}.

Local Abbreviation le_row := (by_distance float_le).
Local Abbreviation Row := (RankedRow Float).

#[local] Instance le_row_total : Total le_row.
Proof. intros a b. apply (total float_le). Qed.

Lemma insert_row_perm (x : Row) l : insert_row float_le x l ≡ₚ x :: l.
Proof.
  induction l as [|y l IH]; simpl; [done|].
  case_decide; [done|]. by rewrite IH, Permutation_swap.
Qed.

Lemma insertion_sort_perm (l : list Row) : insertion_sort float_le l ≡ₚ l.
Proof.
  induction l as [|x l IH]; simpl; [done|].
  by rewrite insert_row_perm, IH.
Qed.

Lemma insert_row_hd (x y : Row) l :
  le_row y x → HdRel le_row y l → HdRel le_row y (insert_row float_le x l).
Proof.
  intros Hyx Hl. destruct l as [|z l]; simpl; [by constructor|].
  case_decide; constructor; [done|]. by inv Hl.
Qed.

Lemma insert_row_sorted (x : Row) l :
  Sorted le_row l → Sorted le_row (insert_row float_le x l).
Proof.
  induction 1 as [|y l Hl IH Hy]; simpl; [by repeat constructor|].
  case_decide as Hxy.
  - by repeat constructor.
  - constructor; [done|]. apply insert_row_hd; [|done].
    by destruct (total le_row x y).
Qed.

Lemma insertion_sort_sorted (l : list Row) :
  Sorted le_row (insertion_sort float_le l).
Proof. induction l; simpl; [constructor|by apply insert_row_sorted]. Qed.

Lemma insertion_sort_ascending : sorts_ascending float_le (insertion_sort float_le).
Proof. intros l. split; [apply insertion_sort_perm|apply insertion_sort_sorted]. Qed.

Lemma sorted_take (R : relation Row) n (l : list Row) :
  Sorted R l → Sorted R (take n l).
Proof.
  intros Hl. revert n. induction Hl as [|x l Hl IH Hx]; intros [|n]; simpl;
    try constructor; [apply IH|].
  destruct Hx as [|y l' Hxy]; destruct n; simpl; by constructor.
Qed.

End OrderFacts.

(** ** The Ranker *)

Section RankFacts.
Context {Float : Type} (float_le : relation Float).

Variable geodesic_km : Float * Float → Float * Float → option Float.
Variable sort_values : list (RankedRow Float) → list (RankedRow Float).
Hypothesis sort_ok : sorts_ascending float_le sort_values.

Local Abbreviation le_row := (by_distance float_le).
Local Abbreviation Row := (RankedRow Float).
Local Abbreviation distances := (with_distance geodesic_km).
Local Abbreviation ranker := (rank geodesic_km sort_values).
Local Abbreviation measured user :=
  (λ row : Row,
     geodesic_km user (Latitude (record row), Longitude (record row))
     = Some (Distance_km row)).

Lemma with_distance_Some user r row :
  distances user r = Some row ↔ record row = r ∧ measured user row.
Proof.
  unfold with_distance. destruct row as [r' d]. simpl. split.
  - destruct (geodesic_km user (Latitude r, Longitude r)) as [d'|] eqn:E;
      simpl; [|done]. intros [= <- <-]. done.
  - intros [-> ->]. done.
Qed.

(** The distance column is assigned when [geodesic] takes every row, and
    then every row has the distance to its own coordinates. *)
Lemma assign_Some user live_df rows :
  mapM (distances user) live_df = Some rows ↔
  record <$> rows = live_df ∧ Forall (measured user) rows.
Proof.
  rewrite mapM_Some. split.
  - induction 1 as [|r row l k Hrow _ IH]; [by split|].
    apply with_distance_Some in Hrow as [<- ?]. destruct IH as [<- ?].
    split; [done|by constructor].
  - intros [<- Hall]. induction Hall as [|row k Hrow _ IH]; csimpl;
      constructor; [|done]. by apply with_distance_Some.
Qed.

Lemma assign_None user live_df :
  mapM (distances user) live_df = None ↔
  Exists (λ r, geodesic_km user (Latitude r, Longitude r) = None) live_df.
Proof.
  rewrite mapM_None, !Exists_exists.
  split; intros (r & Hr & H); exists r; (split; [done|]);
    unfold with_distance in *;
    by destruct (geodesic_km user (Latitude r, Longitude r)).
Qed.

Lemma rank_Some user live_df out :
  ranker user live_df = Some out ↔
  ∃ rows, mapM (distances user) live_df = Some rows ∧
          out = take 30 (sort_values rows).
Proof.
  unfold rank. destruct (mapM (distances user) live_df) as [rows|]; simpl.
  - split; [intros [= <-]; eauto|]. by intros (? & [= <-] & ->).
  - split; [done|]. by intros (? & ? & _).
Qed.

Lemma rank_None user live_df :
  ranker user live_df = None ↔
  Exists (λ r, geodesic_km user (Latitude r, Longitude r) = None) live_df.
Proof.
  rewrite <-assign_None. unfold rank.
  by destruct (mapM (distances user) live_df).
Qed.

Lemma rank_is_Some user live_df :
  is_Some (ranker user live_df) ↔
  Forall (λ r, is_Some (geodesic_km user (Latitude r, Longitude r))) live_df.
Proof.
  split.
  - intros [out Hout]. apply Forall_forall. intros r Hr.
    destruct (geodesic_km user (Latitude r, Longitude r)) eqn:E; [done|].
    assert (ranker user live_df = None) as Hnone
      by (apply rank_None, Exists_exists; eauto).
    congruence.
  - intros Hall. destruct (ranker user live_df) eqn:E; [done|].
    apply rank_None, Exists_exists in E as (r & Hr & Hnone).
    rewrite Forall_forall in Hall. apply Hall in Hr.
    rewrite Hnone in Hr. by destruct Hr.
Qed.

Lemma rank_length user live_df out :
  ranker user live_df = Some out →
  length out = (30 `min` length live_df)%nat.
Proof.
  intros (rows & Hrows & ->)%rank_Some. rewrite length_take.
  destruct (sort_ok rows) as [Hp _]. rewrite Hp.
  by rewrite (length_mapM _ _ _ Hrows).
Qed.

Lemma rank_sorted user live_df out :
  ranker user live_df = Some out → Sorted le_row out.
Proof. intros (rows & _ & ->)%rank_Some. apply sorted_take, sort_ok. Qed.

Lemma rank_submseteq user live_df out :
  ranker user live_df = Some out → record <$> out ⊆+ live_df.
Proof.
  intros (rows & [<- _]%assign_Some & ->)%rank_Some.
  apply fmap_submseteq. etrans; [apply submseteq_take|].
  destruct (sort_ok rows) as [Hp _]. by rewrite Hp.
Qed.

Lemma rank_measured user live_df out :
  ranker user live_df = Some out → Forall (measured user) out.
Proof.
  intros (rows & [_ Hall]%assign_Some & ->)%rank_Some.
  apply Forall_forall. intros row Hrow. rewrite Forall_forall in Hall.
  apply Hall. destruct (sort_ok rows) as [Hp _]. rewrite <-Hp.
  eapply elem_of_submseteq; [done|apply submseteq_take].
Qed.

Lemma rank_all_when_few user live_df out :
  ranker user live_df = Some out →
  (length live_df ≤ 30)%nat → record <$> out ≡ₚ live_df.
Proof.
  intros (rows & Hrows & ->)%rank_Some Hn.
  pose proof (length_mapM _ _ _ Hrows) as Hlen.
  apply assign_Some in Hrows as [<- _].
  destruct (sort_ok rows) as [Hp _].
  rewrite take_ge by (rewrite Hp; lia). by rewrite Hp.
Qed.

(** C1, amended: the Ranker gives an output exactly when [geodesic] takes
    the coordinates of every record; the output is then in non-decreasing
    order of distance, each row being a record it was given with the
    distance from the user's place to that record's own coordinates, and
    has [min 30 n] rows, [n] being the number of records; with thirty
    records or fewer every record is kept. *)
Theorem rank_sorted_and_truncated user live_df :
  (is_Some (rank geodesic_km sort_values user live_df) ↔
   Forall (λ r, is_Some (geodesic_km user (Latitude r, Longitude r)))
          live_df) ∧
  ∀ out, rank geodesic_km sort_values user live_df = Some out →
    Sorted (by_distance float_le) out ∧
    length out = (30 `min` length live_df)%nat ∧
    record <$> out ⊆+ live_df ∧
    Forall (λ row,
              geodesic_km user (Latitude (record row), Longitude (record row))
              = Some (Distance_km row)) out ∧
    ((length live_df ≤ 30)%nat → record <$> out ≡ₚ live_df).
Proof.
  split; [apply rank_is_Some|]. intros out Hout.
  split; [by apply (rank_sorted user live_df)|].
  split; [by apply (rank_length user)|].
  split; [by apply (rank_submseteq user)|].
  split; [by apply (rank_measured user live_df)|].
  by apply (rank_all_when_few user).
Qed.

End RankFacts.

(** ** One fetch *)

Section FetchFacts.
Context {Float : Type}.
Variable float_of_str : string → option Float.

Local Abbreviation fetch := (fetch_live float_of_str).

Ltac task_cases :=
  unfold fetch_live, requests_get, response_json, getitem, split_comma,
    unpack_two_floats, dict_get, float, try_except, mbind, Task_bind,
    task_bind, mret, Task_ret, task_ret, task_raise in *;
  simpl in *;
  repeat (case_match; simpl in *; simplify_eq; try done).

Lemma fetch_live_wire net vin : (fetch net vin).1 = [track_url vin].
Proof. task_cases. Qed.

(** The bare [except] leaves nothing to re-raise. *)
Lemma fetch_live_never_raises net vin : ∃ r, (fetch net vin).2 = inr r.
Proof. task_cases; eauto. Qed.

Lemma fetch_live_fetched net vin :
  fetch net vin = ([track_url vin], inr (fetched float_of_str net vin)).
Proof.
  unfold fetched. destruct (fetch_live_never_raises net vin) as [r Hr].
  rewrite Hr. rewrite <-Hr, <-(fetch_live_wire net vin). by destruct (fetch net vin).
Qed.

Lemma fetch_live_success net vin r :
  fetched float_of_str net vin = Some r →
  ∃ resp m s a b,
    net (track_url vin) = GetReturns resp ∧ status_code resp = 200 ∧
    body resp = Some (JObj m) ∧ m !! "location" = Some (JStr s) ∧
    str_split comma s = [a; b] ∧
    float_of_str a = Some (Latitude r) ∧ float_of_str b = Some (Longitude r) ∧
    VIN r = vin ∧
    Battery r = default JNull (m !! "batteryCharge") ∧
    Last_Updated r = default JNull (m !! "lastUpdated").
Proof.
  unfold fetched. intros Hr. task_cases.
  match goal with
  | H : bool_decide _ = false |- _ =>
      apply bool_decide_eq_false, dec_stable in H
  end.
  repeat eexists; eauto.
Qed.

Lemma fetch_live_non_200 net vin resp :
  net (track_url vin) = GetReturns resp → status_code resp ≠ 200 →
  fetch net vin = ([track_url vin], inr None).
Proof.
  intros Hnet Hst. rewrite fetch_live_fetched. do 2 f_equal.
  destruct (fetched float_of_str net vin) as [r|] eqn:E; [|done].
  apply fetch_live_success in E as (resp' & ? & ? & ? & ? & Hn & Hs & _).
  congruence.
Qed.

Lemma fetch_live_no_location net vin resp :
  net (track_url vin) = GetReturns resp → malformed_body resp →
  fetch net vin = ([track_url vin], inr None).
Proof.
  intros Hnet Hbad. rewrite fetch_live_fetched. do 2 f_equal.
  destruct (fetched float_of_str net vin) as [r|] eqn:E; [|done].
  apply fetch_live_success in E as (resp' & m & s & ? & ? & Hn & _ & Hb & Hl & _).
  rewrite Hnet in Hn. injection Hn as <-. unfold malformed_body in Hbad.
  rewrite Hb in Hbad. simpl in Hbad. by rewrite Hl in Hbad.
Qed.

Lemma fetch_live_not_two_numbers net vin resp d s :
  net (track_url vin) = GetReturns resp →
  body resp = Some d → location_text d = Some s →
  (length (str_split comma s) ≠ 2%nat ∨
   ∃ p, p ∈ str_split comma s ∧ float_of_str p = None) →
  fetch net vin = ([track_url vin], inr None).
Proof.
  intros Hnet Hd Hs Hbad. rewrite fetch_live_fetched. do 2 f_equal.
  destruct (fetched float_of_str net vin) as [r|] eqn:E; [|done].
  apply fetch_live_success in E
    as (resp' & m & s' & a & b & Hn & _ & Hb & Hl & Hsp & Ha & Hb' & _).
  rewrite Hnet in Hn. injection Hn as <-.
  rewrite Hd in Hb. injection Hb as ->.
  simpl in Hs. rewrite Hl in Hs. injection Hs as <-.
  rewrite Hsp in Hbad. destruct Hbad as [?|(p & Hp & Hnone)]; [done|].
  apply elem_of_cons in Hp as [->|Hp]; [congruence|].
  apply list_elem_of_singleton in Hp as ->. congruence.
Qed.

Lemma fetch_live_accepts net vin resp m s a b lat lon :
  net (track_url vin) = GetReturns resp → status_code resp = 200 →
  body resp = Some (JObj m) → m !! "location" = Some (JStr s) →
  str_split comma s = [a; b] →
  float_of_str a = Some lat → float_of_str b = Some lon →
  fetch net vin =
    ([track_url vin],
     inr (Some {| VIN := vin;
                  Latitude := lat;
                  Longitude := lon;
                  Battery := default JNull (m !! "batteryCharge");
                  Last_Updated := default JNull (m !! "lastUpdated") |})).
Proof.
  intros Hnet Hst Hb Hl Hsp Ha Hb'.
  unfold fetch_live, requests_get, response_json, getitem, split_comma,
    unpack_two_floats, dict_get, float, try_except, mbind, Task_bind,
    task_bind, mret, Task_ret, task_ret, task_raise.
  simpl. rewrite Hnet, Hst. simpl. rewrite Hb. simpl. rewrite Hl. simpl.
  rewrite Hsp. simpl. rewrite Ha. simpl. rewrite Hb'. done.
Qed.

(** C5, amended: for every response with status 200 whose JSON body holds
    under "location" a string made of two comma-separated parts that
    [float] accepts, the fetch produces a record whose latitude is the
    float of the first part and whose longitude is the float of the
    second. *)
Theorem status_200_record_has_parsed_floats net vin resp m s a b lat lon :
  net (track_url vin) = GetReturns resp → status_code resp = 200 →
  body resp = Some (JObj m) → m !! "location" = Some (JStr s) →
  str_split comma s = [a; b] →
  float_of_str a = Some lat → float_of_str b = Some lon →
  ∃ r, fetch_live float_of_str net vin = ([track_url vin], inr (Some r)) ∧
       VIN r = vin ∧ Latitude r = lat ∧ Longitude r = lon.
Proof.
  intros. eexists. split; [by eapply fetch_live_accepts|done].
Qed.

(** C10: for any 2xx response whose "location" string splits on commas
    into a number of parts other than two, the fetch yields no record,
    whatever the parts are. *)
Theorem wrong_part_count_yields_no_record net vin resp d s :
  net (track_url vin) = GetReturns resp →
  200 ≤ status_code resp < 300 →
  body resp = Some d → location_text d = Some s →
  length (str_split comma s) ≠ 2%nat →
  fetch_live float_of_str net vin = ([track_url vin], inr None).
Proof.
  intros Hnet _ Hd Hs Hn. eapply fetch_live_not_two_numbers; eauto.
Qed.

End FetchFacts.

(** ** The identifier column *)

Lemma track_url_inj : Inj (=) (=) track_url.
Proof. intros a b H. unfold track_url in H. simpl in H. by simplify_eq. Qed.

Lemma dropna_elem (col : list (option string)) v :
  v ∈ dropna col ↔ Some v ∈ col.
Proof.
  unfold dropna. rewrite list_elem_of_omap. split.
  - by intros ([x|] & Hx & ?); simplify_eq/=.
  - intros Hv. by exists (Some v).
Qed.

Lemma unique_from_spec seen (l : list string) :
  NoDup (unique_from seen l) ∧
  ∀ x, x ∈ unique_from seen l ↔ x ∈ l ∧ x ∉ seen.
Proof.
  revert seen. induction l as [|y l IH]; intros seen; simpl.
  - split; [constructor|]. intros x. rewrite elem_of_nil. tauto.
  - case_decide as Hy.
    + destruct (IH seen) as [Hnd Hin]. split; [done|].
      intros x. rewrite Hin, elem_of_cons. split; [tauto|].
      intros [[->|?] ?]; tauto.
    + destruct (IH ({[y]} ∪ seen)) as [Hnd Hin]. split.
      * constructor; [|done]. rewrite Hin. intros [_ Hn]. apply Hn.
        by apply elem_of_union_l, elem_of_singleton.
      * intros x. rewrite !elem_of_cons, Hin.
        rewrite not_elem_of_union, not_elem_of_singleton.
        destruct (decide (x = y)) as [->|]; tauto.
Qed.

Lemma unique_NoDup (l : list string) : NoDup (unique l).
Proof. apply unique_from_spec. Qed.

Lemma unique_elem (l : list string) x : x ∈ unique l ↔ x ∈ l.
Proof.
  unfold unique. rewrite (proj2 (unique_from_spec ∅ l)).
  split; [tauto|]. intros ?. split; [done|]. apply not_elem_of_empty.
Qed.

(** ** The pool *)

Lemma lookup_all_from {A} (k l : list A) :
  omap (λ i, (k ++ l) !! i) (seq (length k) (length l)) = l.
Proof.
  revert k. induction l as [|x l IH]; intros k; csimpl; [done|].
  rewrite list_lookup_middle by done. csimpl. f_equal.
  specialize (IH (k ++ [x])). rewrite length_app, <-app_assoc in IH.
  simpl in IH. by rewrite Nat.add_1_r in IH.
Qed.

Lemma completed_perm {Float} (env : Env Float) vins :
  fair env → completed env vins ≡ₚ vins.
Proof.
  intros Hfair. unfold completed. rewrite (Hfair (length vins)).
  pose proof (lookup_all_from [] vins) as H. simpl in H. by rewrite H.
Qed.

Lemma completed_subseteq {Float} (env : Env Float) vins v :
  v ∈ completed env vins → v ∈ vins.
Proof.
  unfold completed. rewrite list_elem_of_omap. intros (i & _ & Hi).
  by eapply list_elem_of_lookup_2.
Qed.

(** ** The page *)

Section PageFacts.
Context {Float : Type}.
Variable float_of_str : string → option Float.
Variable format_fixed : nat → Float → string.
Variable geodesic_km : Float * Float → Float * Float → option Float.
Variable infer_dtype : list (json Float) → list (json Float).
Variable sort_values : list (RankedRow Float) → list (RankedRow Float).

Local Abbreviation fetch := (fetch_live float_of_str).
Local Abbreviation got := (fetched float_of_str).
Local Abbreviation page :=
  (script float_of_str format_fixed geodesic_km infer_dtype sort_values).
Local Abbreviation same_keys :=
  (λ r r' : VehicleRecord Float,
     VIN r' = VIN r ∧ Latitude r' = Latitude r ∧ Longitude r' = Longitude r).
Local Abbreviation done_future net :=
  (λ v : string, inr (got net v) : exn + option (VehicleRecord Float)).

Lemma submit_all_spec net vins :
  submit_all float_of_str net vins
  = (mkLog [] (track_url <$> vins), inr (done_future net <$> vins)).
Proof.
  unfold submit_all. f_equal.
  - f_equal. induction vins as [|v vins IH]; csimpl; [done|].
    by rewrite fetch_live_wire, IH.
  - f_equal. rewrite <-list_fmap_compose. apply list_fmap_ext.
    intros _ v _. simpl. by rewrite fetch_live_fetched.
Qed.

Lemma as_completed_spec env vins :
  as_completed env (done_future (network env) <$> vins)
  = done_future (network env) <$> completed env vins.
Proof.
  unfold as_completed, completed. rewrite length_fmap.
  induction (completion env (length vins)) as [|i l IH]; csimpl; [done|].
  rewrite list_lookup_fmap. destruct (vins !! i); csimpl; by rewrite IH.
Qed.

Lemma collect_spec net total i vs acc :
  collect total i (done_future net <$> vs) acc
  = (mkLog (progress_bars total i (length vs)) [],
     inr (acc ++ omap (got net) vs)).
Proof.
  revert i acc. induction vs as [|v vs IH]; intros i acc; csimpl.
  - by rewrite app_nil_r.
  - unfold mbind, Script_bind, script_bind. csimpl. rewrite IH. csimpl.
    unfold progress_bars, log_app. csimpl. f_equal. f_equal.
    destruct (got net v); csimpl; [|done]. by rewrite <-app_assoc.
Qed.

Lemma fetch_all_spec env vins :
  fetch_all float_of_str env vins
  = (mkLog (Info "Fetching live vehicle data..." :: Progress 0 1 ::
            progress_bars (length vins) 0
              (length (completed env vins)))
           (track_url <$> vins),
     inr (collected float_of_str env vins)).
Proof.
  unfold fetch_all, mbind, Script_bind, script_bind, show. cbv beta iota zeta.
  rewrite submit_all_spec. cbv beta iota zeta.
  rewrite as_completed_spec, collect_spec.
  unfold log_app. csimpl. by rewrite app_nil_r.
Qed.

(** The frame has the records' rows, in order, with their identifier and
    coordinates. *)
Lemma pd_DataFrame_rows results :
  Forall2 same_keys results (pd_DataFrame infer_dtype results).
Proof.
  unfold pd_DataFrame. apply Forall2_same_length_lookup_2.
  { by rewrite length_imap. }
  intros i r r' Hr Hr'. rewrite list_lookup_imap, Hr in Hr'.
  simpl in Hr'. by injection Hr' as <-.
Qed.

Lemma length_pd_DataFrame results :
  length (pd_DataFrame infer_dtype results) = length results.
Proof. unfold pd_DataFrame. by rewrite length_imap. Qed.

Lemma pd_DataFrame_VIN results :
  VIN <$> pd_DataFrame infer_dtype results = VIN <$> results.
Proof.
  pose proof (pd_DataFrame_rows results) as H.
  induction H as [|r r' l k (Hv & _) _ IH]; csimpl; [done|].
  by rewrite Hv, IH.
Qed.

Lemma pd_DataFrame_row_of results r' :
  r' ∈ pd_DataFrame infer_dtype results →
  ∃ r, r ∈ results ∧ same_keys r r'.
Proof.
  intros Hr'. pose proof (pd_DataFrame_rows results) as H.
  induction H as [|r r0 l k Hk _ IH]; [by apply elem_of_nil in Hr'|].
  apply elem_of_cons in Hr' as [->|Hr'].
  - exists r. split; [left|done].
  - destruct (IH Hr') as (r1 & ? & ?). exists r1. split; [by right|done].
Qed.

Lemma pd_DataFrame_has_row results r :
  r ∈ results →
  ∃ r', r' ∈ pd_DataFrame infer_dtype results ∧ same_keys r r'.
Proof.
  intros Hr. pose proof (pd_DataFrame_rows results) as H.
  induction H as [|r0 r' l k Hk _ IH]; [by apply elem_of_nil in Hr|].
  apply elem_of_cons in Hr as [->|Hr].
  - exists r'. split; [left|done].
  - destruct (IH Hr) as (r1 & ? & ?). exists r1. split; [by right|done].
Qed.

Lemma script_with_column env lat lon df col :
  geolocation env = Some (lat, lon) →
  uploaded env = Some (Workbook df) →
  df !! "vehicleId" = Some col →
  let vins := unique (dropna col) in
  let results := collected float_of_str env vins in
  page env =
    if decide (length results = 0%nat)
    then (mkLog (page_head format_fixed env lat lon vins
                 ++ [Error "No live data received."])
                (track_url <$> vins),
          inl Stopped)
    else
      match rank geodesic_km sort_values (lat, lon)
              (pd_DataFrame infer_dtype results) with
      | None =>
          (mkLog (page_head format_fixed env lat lon vins)
                 (track_url <$> vins),
           inl (Crashed ValueError))
      | Some TOP =>
          (mkLog (page_head format_fixed env lat lon vins
                  ++ [Subheader "📋 Top 30 Nearest Vehicles";
                      Dataframe TOP;
                      Subheader "🗺 Vehicle Map";
                      Folium (UserMarker lat lon :: (VehicleMarker <$> TOP));
                      Success "✅ Live tracking complete"])
                 (track_url <$> vins),
           inr ())
      end.
Proof.
  intros Hgeo Hup Hcol vins results.
  unfold script, mbind, Script_bind, script_bind, show.
  rewrite Hgeo, Hup. cbv beta iota zeta. unfold pd_read_excel.
  cbv beta iota zeta. unfold mret, Script_ret, script_ret.
  cbv beta iota zeta. rewrite Hcol. cbv beta iota zeta.
  rewrite fetch_all_spec. cbv beta iota zeta. fold vins. fold results.
  unfold page_head, log_app. fold vins.
  destruct (decide (length results = 0%nat)); csimpl; unfold st_stop.
  { by rewrite ?app_nil_r, <-?app_assoc. }
  destruct (rank geodesic_km sort_values (lat, lon)
              (pd_DataFrame infer_dtype results)); csimpl; unfold raise;
    by rewrite ?app_nil_r, <-?app_assoc.
Qed.

Lemma collected_elem env vins r :
  r ∈ collected float_of_str env vins →
  ∃ v, v ∈ vins ∧ got (network env) v = Some r.
Proof.
  unfold collected. rewrite list_elem_of_omap. intros (v & Hv & Hr).
  exists v. split; [|done]. by eapply completed_subseteq.
Qed.

Lemma collected_all_failed env vins :
  (∀ v, v ∈ vins → got (network env) v = None) →
  collected float_of_str env vins = [].
Proof.
  intros Hall. destruct (collected float_of_str env vins) as [|r k] eqn:E; [done|].
  assert (r ∈ collected float_of_str env vins) as Hr by (rewrite E; left).
  apply collected_elem in Hr as (v & Hv & Hgot). by rewrite Hall in Hgot.
Qed.

(** What a crash of the run is due to. *)
Lemma script_crash_cause env e :
  (page env).2 = inl (Crashed e) →
  (e = ExcelReadError ∧ uploaded env = Some Unreadable) ∨
  (e = ValueError ∧
   ∃ lat lon df col r,
     geolocation env = Some (lat, lon) ∧
     uploaded env = Some (Workbook df) ∧
     df !! "vehicleId" = Some col ∧
     r ∈ collected float_of_str env (unique (dropna col)) ∧
     geodesic_km (lat, lon) (Latitude r, Longitude r) = None).
Proof.
  destruct (geolocation env) as [[lat lon]|] eqn:Hgeo; cycle 1.
  { unfold script, mbind, Script_bind, script_bind, show. by rewrite Hgeo. }
  destruct (uploaded env) as [[|df]|] eqn:Hfile; cycle 2.
  { unfold script, mbind, Script_bind, script_bind, show.
    by rewrite Hgeo, Hfile. }
  { unfold script, mbind, Script_bind, script_bind, show.
    rewrite Hgeo, Hfile. simpl. intros [= <-]. by left. }
  destruct (df !! "vehicleId") as [col|] eqn:Hcol; cycle 1.
  { unfold script, mbind, Script_bind, script_bind, show.
    rewrite Hgeo, Hfile. cbv beta iota zeta. unfold pd_read_excel.
    cbv beta iota zeta. unfold mret, Script_ret, script_ret.
    cbv beta iota zeta. by rewrite Hcol. }
  rewrite (script_with_column env lat lon df col) by done.
  case_decide; [done|].
  destruct (rank geodesic_km sort_values (lat, lon) _) eqn:Hrank; [done|].
  simpl. intros [= <-]. right. split; [done|].
  apply rank_None, Exists_exists in Hrank as (r' & Hr' & Hnone).
  apply pd_DataFrame_row_of in Hr' as (r & Hr & _ & Hlat & Hlon).
  rewrite Hlat, Hlon in Hnone. by exists lat, lon, df, col, r.
Qed.

(** C2: when the response for an identifier has a non-2xx status, a body
    that does not decode to a document with a location string, or a
    location with a non-numeric part, the fetch returns nothing and raises
    nothing; the fetch loop over any list of identifiers still ends with
    its list of results, none of them for that identifier and, every
    future being handed over, none of the others lost; and if the run
    fails, it fails on the workbook or on another identifier, one whose
    fetch did give a record and whose coordinates [geodesic] refuses. *)
Theorem failed_fetch_is_dropped_and_run_goes_on env vin resp :
  let run :=
    script float_of_str format_fixed geodesic_km infer_dtype sort_values
      env in
  network env (track_url vin) = GetReturns resp →
  non_2xx resp ∨ malformed_body resp ∨ non_numeric_location float_of_str resp →
  fetch_live float_of_str (network env) vin = ([track_url vin], inr None) ∧
  (∀ vins, ∃ log results,
     fetch_all float_of_str env vins = (log, inr results) ∧
     (∀ r, r ∈ results → VIN r ≠ vin) ∧
     (fair env →
      ∀ v r, v ∈ vins → fetched float_of_str (network env) v = Some r →
             r ∈ results)) ∧
  (∀ e, run.2 = inl (Crashed e) →
     (e = ExcelReadError ∧ uploaded env = Some Unreadable) ∨
     (e = ValueError ∧
      ∃ user other r,
        geolocation env = Some user ∧ other ≠ vin ∧
        fetched float_of_str (network env) other = Some r ∧
        geodesic_km user (Latitude r, Longitude r) = None)).
Proof.
  intros run Hnet Hbad. subst run.
  assert (fetch (network env) vin = ([track_url vin], inr None)) as Hnone.
  { destruct Hbad as [H2xx|[Hmal|(d & s & p & Hd & Hs & Hp & Hnum)]].
    - eapply fetch_live_non_200; [done|]. unfold non_2xx in H2xx. lia.
    - by eapply fetch_live_no_location.
    - eapply fetch_live_not_two_numbers; eauto. }
  split; [done|]. split.
  - intros vins. rewrite fetch_all_spec. do 2 eexists. split; [done|]. split.
    + intros r (v & _ & Hgot)%collected_elem Heq.
      apply fetch_live_success in Hgot as Hv.
      destruct Hv as (? & ? & ? & ? & ? & _ & _ & _ & _ & _ & _ & _ & Hvin & _).
      rewrite <-Hvin, Heq in Hgot. unfold fetched in Hgot.
      by rewrite Hnone in Hgot.
    + intros Hfair v r Hv Hgot. unfold collected. apply list_elem_of_omap.
      exists v. split; [|done]. by rewrite completed_perm.
  - intros e [Hread|(-> & lat & lon & df & col & r & Hgeo & _ & _ & Hr & Hrefused)]
      %script_crash_cause; [by left|].
    right. split; [done|].
    apply collected_elem in Hr as (other & _ & Hgot).
    exists (lat, lon), other, r. repeat (split; [done|]). split; [|done].
    intros ->. unfold fetched in Hgot. by rewrite Hnone in Hgot.
Qed.

(** C4: the requests of a run are exactly one per distinct non-empty cell
    of the "vehicleId" column: no URL is requested twice, and a URL is
    requested if and only if it is the tracking URL of such a cell. *)
Theorem one_request_per_unique_identifier env lat lon df col :
  let run :=
    script float_of_str format_fixed geodesic_km infer_dtype sort_values
      env in
  geolocation env = Some (lat, lon) →
  uploaded env = Some (Workbook df) →
  df !! "vehicleId" = Some col →
  let requests := wire run.1 in
  requests = track_url <$> unique (dropna col) ∧
  NoDup (unique (dropna col)) ∧
  NoDup requests ∧
  (∀ vin, vin ∈ unique (dropna col) ↔ Some vin ∈ col) ∧
  (∀ url, url ∈ requests ↔ ∃ vin, Some vin ∈ col ∧ url = track_url vin).
Proof.
  intros run Hgeo Hup Hcol requests. subst run.
  assert (requests = track_url <$> unique (dropna col)) as Hreq.
  { unfold requests. rewrite (script_with_column env lat lon df col) by done.
    case_decide; [done|]. by case_match. }
  split; [done|]. split; [apply unique_NoDup|]. split; [|split].
  - rewrite Hreq. apply (NoDup_fmap_2 _), unique_NoDup.
  - intros vin. by rewrite unique_elem, dropna_elem.
  - intros url. rewrite Hreq, list_elem_of_fmap. split.
    + intros (vin & -> & Hvin). exists vin.
      by rewrite unique_elem, dropna_elem in Hvin.
    + intros (vin & Hvin & ->). exists vin.
      by rewrite unique_elem, dropna_elem.
Qed.

(** C6: when the uploaded workbook has no "vehicleId" column the run stops
    without a single request; the page then ends on the error message
    about the missing column. *)
Theorem missing_column_stops_before_any_request env df :
  let run :=
    script float_of_str format_fixed geodesic_km infer_dtype sort_values
      env in
  uploaded env = Some (Workbook df) →
  df !! "vehicleId" = None →
  wire run.1 = [] ∧
  run.2 = inl Stopped ∧
  (∀ lat lon, geolocation env = Some (lat, lon) →
     screen run.1 =
       [Title "🚗 Ola Fleet Live Tracker";
        Success ("📍 Your Location: " +:+ format_fixed 6 lat
                 +:+ ", " +:+ format_fixed 6 lon);
        Error "Excel must contain 'vehicleId' column"]).
Proof.
  intros run Hup Hcol. subst run.
  destruct (geolocation env) as [[lat lon]|] eqn:Hgeo.
  - assert (page env =
      (mkLog [Title "🚗 Ola Fleet Live Tracker";
              Success ("📍 Your Location: " +:+ format_fixed 6 lat
                       +:+ ", " +:+ format_fixed 6 lon);
              Error "Excel must contain 'vehicleId' column"] [],
       inl Stopped)) as ->.
    { unfold script, mbind, Script_bind, script_bind, show.
      rewrite Hgeo, Hup. cbv beta iota zeta. unfold pd_read_excel.
      cbv beta iota zeta. unfold mret, Script_ret, script_ret.
      cbv beta iota zeta. by rewrite Hcol. }
    split; [done|]. split; [done|]. by intros ?? [= <- <-].
  - unfold script, mbind, Script_bind, script_bind, show. rewrite Hgeo.
    by repeat split.
Qed.

(** C7: when every submitted fetch fails the list of results is empty, the
    page shows one error, "No live data received.", and the run stops:
    no table and no map are rendered. *)
Theorem all_fetches_failed_stops_with_one_error env lat lon df col :
  let run :=
    script float_of_str format_fixed geodesic_km infer_dtype sort_values
      env in
  geolocation env = Some (lat, lon) →
  uploaded env = Some (Workbook df) →
  df !! "vehicleId" = Some col →
  (∀ vin, vin ∈ unique (dropna col) →
          fetched float_of_str (network env) vin = None) →
  collected float_of_str env (unique (dropna col)) = [] ∧
  run.2 = inl Stopped ∧
  screen run.1 =
    page_head format_fixed env lat lon (unique (dropna col))
    ++ [Error "No live data received."] ∧
  filter is_error (screen run.1) = [Error "No live data received."] ∧
  filter is_rendering (screen run.1) = [].
Proof.
  intros run Hgeo Hup Hcol Hall. subst run.
  pose proof (collected_all_failed env _ Hall) as Hnil.
  rewrite (script_with_column env lat lon df col) by done.
  rewrite Hnil. simpl. split; [done|]. split; [done|]. split; [done|].
  unfold page_head, progress_bars.
  generalize (seq 0 (length (completed env (unique (dropna col))))).
  intros l.
  assert (∀ P : ui_event Float → Prop, ∀ Hdec : ∀ e, Decision (P e),
            (∀ n d, ¬ P (Progress n d)) →
            filter P ((λ k, Progress (k + 1) (length (unique (dropna col))))
                      <$> l) = []) as Hbars.
  { intros P Hdec HP. induction l as [|i l IH]; [done|]. csimpl.
    by rewrite filter_cons_False. }
  split.
  - rewrite !filter_cons. simpl. rewrite filter_app, Hbars; [done|].
    intros ?? [].
  - rewrite !filter_cons. simpl. rewrite filter_app, Hbars; [done|].
    intros ?? [].
Qed.

(** C9, amended: a fetch that failed or did not parse adds nothing to the
    results; every record of the results carries the identifier it was
    fetched for and the two floats parsed from a status-200 answer, while
    its battery and last-update fields are whatever the answer held, null
    when it held none. *)
Theorem results_hold_parsed_records_only env vins log results r :
  fetch_all float_of_str env vins = (log, inr results) →
  r ∈ results →
  VIN r ∈ vins ∧
  ∃ resp m s a b,
    network env (track_url (VIN r)) = GetReturns resp ∧
    status_code resp = 200 ∧
    body resp = Some (JObj m) ∧ m !! "location" = Some (JStr s) ∧
    str_split comma s = [a; b] ∧
    float_of_str a = Some (Latitude r) ∧
    float_of_str b = Some (Longitude r) ∧
    Battery r = default JNull (m !! "batteryCharge") ∧
    Last_Updated r = default JNull (m !! "lastUpdated").
Proof.
  rewrite fetch_all_spec. intros [= _ <-] (v & Hv & Hgot)%collected_elem.
  apply fetch_live_success in Hgot
    as (resp & m & s & a & b & ? & ? & ? & ? & ? & ? & ? & <- & ? & ?).
  split; [done|]. by exists resp, m, s, a, b.
Qed.

End PageFacts.

(** * The statements at work on the small instance *)

Lemma demo_sort_ascending : sorts_ascending Z.le Demo.sort_values.
Proof. apply insertion_sort_ascending; apply _. Qed.

Lemma demo_fair file : fair (Demo.env file).
Proof. by intros n. Qed.

(** C1: a vehicle whose answer is well formed and gives latitude 91 is
    fetched like any other; [geodesic] refuses its coordinates, so the
    Ranker has no output for the two records and the run ends on the
    error raised there. *)
Lemma rank_raises_on_refused_latitude :
  let r8 := {| VIN := "V8"; Latitude := 91000000; Longitude := 77600000;
               Battery := JNull; Last_Updated := JNull |} in
  let records := [Demo.parked "V1"; r8] in
  let env := Demo.env (Some (Workbook (Demo.sheet [Some "V1"; Some "V8"]))) in
  fetch_live Demo.float_of_str Demo.service "V8"
    = ([track_url "V8"], inr (Some r8)) ∧
  (fetch_all Demo.float_of_str env ["V1"; "V8"]).2 = inr records ∧
  Demo.geodesic_km Demo.here (Latitude r8, Longitude r8) = None ∧
  rank Demo.geodesic_km Demo.sort_values Demo.here records = None ∧
  (¬ ∃ out, rank Demo.geodesic_km Demo.sort_values Demo.here records
            = Some out) ∧
  (Demo.run (uploaded env)).2 = inl (Crashed ValueError).
Proof.
  repeat split; try reflexivity.
  intros [out Hout]. vm_compute in Hout. discriminate Hout.
Qed.

(** C1, amended, on thirty-one vehicles at thirty-one different distances,
    the first of the list being the farthest, and on three of them. *)
Lemma rank_sorted_and_truncated_witness :
  sorts_ascending Z.le Demo.sort_values ∧
  (let fleet := Demo.fleet 31 in
   Forall (λ r, is_Some (Demo.geodesic_km Demo.here (Latitude r, Longitude r)))
          fleet ∧
   ∃ out,
     rank Demo.geodesic_km Demo.sort_values Demo.here fleet = Some out ∧
     record <$> out = reverse (drop 1 fleet) ∧
     Sorted (by_distance Z.le) out ∧
     length out = 30%nat ∧
     record <$> out ⊆+ fleet ∧
     Forall (λ row,
               Demo.geodesic_km Demo.here
                 (Latitude (record row), Longitude (record row))
               = Some (Distance_km row)) out) ∧
  (let fleet := Demo.fleet 3 in
   ∃ out,
     rank Demo.geodesic_km Demo.sort_values Demo.here fleet = Some out ∧
     Distance_km <$> out = [1000; 2000; 3000] ∧
     Sorted (by_distance Z.le) out ∧
     length out = 3%nat ∧
     (length fleet ≤ 30)%nat ∧
     record <$> out ≡ₚ fleet).
Proof.
  split; [apply demo_sort_ascending|]. split.
  - pose (out := default [] (rank Demo.geodesic_km Demo.sort_values Demo.here
                               (Demo.fleet 31))).
    assert (rank Demo.geodesic_km Demo.sort_values Demo.here (Demo.fleet 31)
            = Some out) as Hrank by (vm_compute; reflexivity).
    destruct (rank_sorted_and_truncated Z.le Demo.geodesic_km
                Demo.sort_values demo_sort_ascending Demo.here
                (Demo.fleet 31)) as [Hiff Hout].
    destruct (Hout out Hrank) as (Hs & Hlen & Hsub & Hm & _).
    split; [apply Hiff; by exists out|].
    exists out. split; [exact Hrank|].
    split; [vm_compute; reflexivity|]. split; [exact Hs|].
    split; [exact Hlen|]. split; [exact Hsub|]. exact Hm.
  - pose (out := default [] (rank Demo.geodesic_km Demo.sort_values Demo.here
                               (Demo.fleet 3))).
    assert (rank Demo.geodesic_km Demo.sort_values Demo.here (Demo.fleet 3)
            = Some out) as Hrank by (vm_compute; reflexivity).
    destruct (rank_sorted_and_truncated Z.le Demo.geodesic_km
                Demo.sort_values demo_sort_ascending Demo.here
                (Demo.fleet 3)) as [_ Hout].
    destruct (Hout out Hrank) as (Hs & Hlen & _ & _ & Hall).
    assert (length (Demo.fleet 3) ≤ 30)%nat as Hfew by (vm_compute; lia).
    exists out. split; [exact Hrank|].
    split; [vm_compute; reflexivity|]. split; [exact Hs|].
    split; [exact Hlen|]. split; [exact Hfew|]. exact (Hall Hfew).
Defined.

(** C2 on a sheet with a good vehicle, one the service answers 404 for,
    and one whose latitude [geodesic] refuses: the run fails, and on the
    last of the three. *)
Lemma failed_fetch_is_dropped_and_run_goes_on_witness :
  let env :=
    Demo.env (Some (Workbook (Demo.sheet [Some "V1"; Some "V3"; Some "V8"]))) in
  let resp := {| status_code := 404; body := None |} in
  network env (track_url "V3") = GetReturns resp ∧
  non_2xx resp ∧
  fetch_live Demo.float_of_str (network env) "V3"
    = ([track_url "V3"], inr None) ∧
  (∃ log results,
     fetch_all Demo.float_of_str env ["V1"; "V3"; "V8"] = (log, inr results) ∧
     (∀ r, r ∈ results → VIN r ≠ "V3") ∧
     Demo.parked "V1" ∈ results) ∧
  (Demo.run (uploaded env)).2 = inl (Crashed ValueError) ∧
  ((ValueError = ExcelReadError ∧ uploaded env = Some Unreadable) ∨
   (ValueError = ValueError ∧
    ∃ user other r,
      geolocation env = Some user ∧ other ≠ "V3" ∧
      fetched Demo.float_of_str (network env) other = Some r ∧
      Demo.geodesic_km user (Latitude r, Longitude r) = None)).
Proof.
  intros env resp.
  assert (network env (track_url "V3") = GetReturns resp) as Hnet
    by reflexivity.
  assert (non_2xx resp) as Hbad by (unfold non_2xx; simpl; lia).
  assert ((Demo.run (uploaded env)).2 = inl (Crashed ValueError)) as Hcrash
    by reflexivity.
  destruct (failed_fetch_is_dropped_and_run_goes_on
              Demo.float_of_str Demo.format_fixed Demo.geodesic_km
              Demo.infer_dtype Demo.sort_values env "V3" resp Hnet
              (or_introl Hbad))
    as (Hnone & Hloop & Hrun).
  split; [exact Hnet|]. split; [exact Hbad|]. split; [exact Hnone|]. split.
  - destruct (Hloop ["V1"; "V3"; "V8"])
      as (log & results & Hall & Hnot & Hkept).
    exists log, results. split; [exact Hall|]. split; [exact Hnot|].
    apply (Hkept (demo_fair _) "V1"); [left|reflexivity].
  - split; [exact Hcrash|]. exact (Hrun ValueError Hcrash).
Defined.

(** C4 on a sheet with a repeated identifier and an empty cell. *)
Lemma one_request_per_unique_identifier_witness :
  let cells := [Some "V1"; None; Some "V7"; Some "V1"] in
  let env := Demo.env (Some (Workbook (Demo.sheet cells))) in
  let requests := wire (Demo.run (uploaded env)).1 in
  geolocation env = Some Demo.here ∧
  uploaded env = Some (Workbook (Demo.sheet cells)) ∧
  Demo.sheet cells !! "vehicleId" = Some cells ∧
  requests = [track_url "V1"; track_url "V7"] ∧
  NoDup requests ∧
  (∀ url, url ∈ requests ↔ ∃ vin, Some vin ∈ cells ∧ url = track_url vin).
Proof.
  intros cells env requests.
  assert (Demo.sheet cells !! "vehicleId" = Some cells) as Hcol
    by reflexivity.
  destruct (one_request_per_unique_identifier
              Demo.float_of_str Demo.format_fixed Demo.geodesic_km
              Demo.infer_dtype Demo.sort_values env _ _ (Demo.sheet cells) cells
              eq_refl eq_refl Hcol)
    as (Hreq & _ & Hnd & _ & Hiff).
  split; [reflexivity|]. split; [reflexivity|]. split; [exact Hcol|].
  split; [exact Hreq|]. split; [exact Hnd|]. exact Hiff.
Defined.

(** C5: a response with status 201 and a well-formed location gives no
    record. *)
Lemma status_201_yields_no_record :
  let resp := {| status_code := 201; body := Some Demo.depot |} in
  Demo.service (track_url "V6") = GetReturns resp ∧
  200 ≤ status_code resp < 300 ∧
  location_text Demo.depot = Some "12.90,77.60" ∧
  str_split comma "12.90,77.60" = ["12.90"; "77.60"] ∧
  Demo.float_of_str "12.90" = Some 12900000 ∧
  Demo.float_of_str "77.60" = Some 77600000 ∧
  fetch_live Demo.float_of_str Demo.service "V6"
    = ([track_url "V6"], inr None) ∧
  ¬ ∃ r, fetch_live Demo.float_of_str Demo.service "V6"
           = ([track_url "V6"], inr (Some r)).
Proof.
  simpl. repeat split; try reflexivity; try lia.
  intros [r Hr]. vm_compute in Hr. discriminate Hr.
Qed.

(** C5, amended, on the first vehicle at the depot. *)
Lemma status_200_record_has_parsed_floats_witness :
  let resp := {| status_code := 200; body := Some Demo.depot |} in
  let m : gmap string (json Z) := {[ "location" := JStr "12.90,77.60" ]} in
  Demo.service (track_url "V1") = GetReturns resp ∧
  status_code resp = 200 ∧
  body resp = Some (JObj m) ∧
  m !! "location" = Some (JStr "12.90,77.60") ∧
  str_split comma "12.90,77.60" = ["12.90"; "77.60"] ∧
  Demo.float_of_str "12.90" = Some 12900000 ∧
  Demo.float_of_str "77.60" = Some 77600000 ∧
  ∃ r, fetch_live Demo.float_of_str Demo.service "V1"
         = ([track_url "V1"], inr (Some r)) ∧
       VIN r = "V1" ∧ Latitude r = 12900000 ∧ Longitude r = 77600000.
Proof.
  intros resp m.
  assert (m !! "location" = Some (JStr "12.90,77.60")) as Hloc by reflexivity.
  repeat (split; [first [reflexivity | exact Hloc]|]).
  exact (status_200_record_has_parsed_floats Demo.float_of_str Demo.service
           "V1" resp m "12.90,77.60" "12.90" "77.60" 12900000 77600000
           eq_refl eq_refl eq_refl Hloc eq_refl eq_refl eq_refl).
Defined.

(** C6 on a workbook whose column is called "vehicle_id". *)
Lemma missing_column_stops_before_any_request_witness :
  let df : DataFrame := {[ "vehicle_id" := [Some "V1"] ]} in
  let env := Demo.env (Some (Workbook df)) in
  uploaded env = Some (Workbook df) ∧
  df !! "vehicleId" = None ∧
  wire (Demo.run (uploaded env)).1 = [] ∧
  (Demo.run (uploaded env)).2 = inl Stopped ∧
  screen (Demo.run (uploaded env)).1 =
    [Title "🚗 Ola Fleet Live Tracker";
     Success ("📍 Your Location: " +:+ Demo.format_fixed 6 12900000
              +:+ ", " +:+ Demo.format_fixed 6 77600000);
     Error "Excel must contain 'vehicleId' column"].
Proof.
  intros df env.
  assert (df !! "vehicleId" = None) as Hcol by reflexivity.
  destruct (missing_column_stops_before_any_request
              Demo.float_of_str Demo.format_fixed Demo.geodesic_km
              Demo.infer_dtype Demo.sort_values env df eq_refl Hcol) as (Hwire & Hstop & Hscreen).
  split; [reflexivity|]. split; [exact Hcol|]. split; [exact Hwire|].
  split; [exact Hstop|]. exact (Hscreen _ _ eq_refl).
Defined.

(** C7 on a sheet of two vehicles whose answers are both no good. *)
Lemma all_fetches_failed_stops_with_one_error_witness :
  let cells := [Some "V3"; Some "V4"] in
  let env := Demo.env (Some (Workbook (Demo.sheet cells))) in
  (∀ vin, vin ∈ unique (dropna cells) →
          fetched Demo.float_of_str (network env) vin = None) ∧
  collected Demo.float_of_str env (unique (dropna cells)) = [] ∧
  (Demo.run (uploaded env)).2 = inl Stopped ∧
  filter is_error (screen (Demo.run (uploaded env)).1)
    = [Error "No live data received."] ∧
  filter is_rendering (screen (Demo.run (uploaded env)).1) = [].
Proof.
  intros cells env.
  assert (∀ vin, vin ∈ unique (dropna cells) →
                 fetched Demo.float_of_str (network env) vin = None) as Hall.
  { intros vin Hvin. change (unique (dropna cells)) with ["V3"; "V4"] in Hvin.
    apply elem_of_cons in Hvin as [->|Hvin]; [reflexivity|].
    apply list_elem_of_singleton in Hvin as ->. reflexivity. }
  assert (Demo.sheet cells !! "vehicleId" = Some cells) as Hcol
    by reflexivity.
  destruct (all_fetches_failed_stops_with_one_error
              Demo.float_of_str Demo.format_fixed Demo.geodesic_km
              Demo.infer_dtype Demo.sort_values env _ _ (Demo.sheet cells) cells
              eq_refl eq_refl Hcol Hall)
    as (Hnil & Hstop & _ & Herr & Hrender).
  split; [exact Hall|]. split; [exact Hnil|]. split; [exact Hstop|].
  split; [exact Herr|]. exact Hrender.
Defined.

(** C9: the record fetched for a vehicle whose answer holds a location and
    nothing else enters the results with a null battery and a null last
    update. *)
Lemma result_with_null_fields :
  let env := Demo.env (Some (Workbook (Demo.sheet [Some "V1"]))) in
  (fetch_all Demo.float_of_str env ["V1"]).2 = inr [Demo.parked "V1"] ∧
  Battery (Demo.parked "V1") = JNull ∧
  Last_Updated (Demo.parked "V1") = JNull.
Proof. repeat split; reflexivity. Qed.

(** C9, amended, on the same fetch. *)
Lemma results_hold_parsed_records_only_witness :
  let env := Demo.env (Some (Workbook (Demo.sheet [Some "V1"; Some "V3"]))) in
  let log := (fetch_all Demo.float_of_str env ["V1"; "V3"]).1 in
  let r := Demo.parked "V1" in
  fetch_all Demo.float_of_str env ["V1"; "V3"] = (log, inr [r]) ∧
  r ∈ [r] ∧
  VIN r ∈ ["V1"; "V3"] ∧
  ∃ resp m s a b,
    network env (track_url (VIN r)) = GetReturns resp ∧
    status_code resp = 200 ∧
    body resp = Some (JObj m) ∧ m !! "location" = Some (JStr s) ∧
    str_split comma s = [a; b] ∧
    Demo.float_of_str a = Some (Latitude r) ∧
    Demo.float_of_str b = Some (Longitude r) ∧
    Battery r = default JNull (m !! "batteryCharge") ∧
    Last_Updated r = default JNull (m !! "lastUpdated").
Proof.
  intros env log r.
  assert (fetch_all Demo.float_of_str env ["V1"; "V3"] = (log, inr [r]))
    as Hrun by reflexivity.
  assert (r ∈ [r]) as Hin by left.
  split; [exact Hrun|]. split; [exact Hin|].
  exact (results_hold_parsed_records_only Demo.float_of_str env
           ["V1"; "V3"] log [r] r Hrun Hin).
Defined.

(** C10 on the vehicle whose location has three numeric parts. *)
Lemma wrong_part_count_yields_no_record_witness :
  let d : json Z := JObj {[ "location" := JStr "12.90,77.60,5" ]} in
  let resp := {| status_code := 200; body := Some d |} in
  Demo.service (track_url "V5") = GetReturns resp ∧
  200 ≤ status_code resp < 300 ∧
  body resp = Some d ∧
  location_text d = Some "12.90,77.60,5" ∧
  length (str_split comma "12.90,77.60,5") ≠ 2%nat ∧
  Forall (λ p, is_Some (Demo.float_of_str p)) (str_split comma "12.90,77.60,5") ∧
  fetch_live Demo.float_of_str Demo.service "V5"
    = ([track_url "V5"], inr None).
Proof.
  intros d resp.
  assert (200 ≤ status_code resp < 300) as Hst by (simpl; lia).
  assert (location_text d = Some "12.90,77.60,5") as Hloc by reflexivity.
  assert (length (str_split comma "12.90,77.60,5") ≠ 2%nat) as Hlen
    by (simpl; lia).
  split; [reflexivity|]. split; [exact Hst|]. split; [reflexivity|].
  split; [exact Hloc|]. split; [exact Hlen|]. split.
  - repeat constructor; by eexists.
  - exact (wrong_part_count_yields_no_record Demo.float_of_str Demo.service
             "V5" resp d "12.90,77.60,5" eq_refl Hst eq_refl Hloc Hlen).
Defined.


(** * Further facts *)

(** ** Splitting the location *)

Lemma str_split_nonempty sep s : str_split sep s ≠ [].
Proof.
  destruct s as [|c s]; simpl; [done|].
  destruct (Ascii.eqb c sep); [done|]. by destruct (str_split sep s).
Qed.

Lemma str_split_free sep s : Forall (free_of sep) (str_split sep s).
Proof.
  induction s as [|c s IH]; simpl; [by repeat constructor|].
  destruct (Ascii.eqb_spec c sep) as [->|Hc].
  - by constructor.
  - destruct (str_split sep s) as [|p ps]; [by repeat constructor|].
    inv IH. by repeat constructor.
Qed.

Lemma str_split_join sep s :
  String.concat (String sep EmptyString) (str_split sep s) = s.
Proof.
  induction s as [|c s IH]; simpl; [done|].
  pose proof (str_split_nonempty sep s) as Hne.
  destruct (Ascii.eqb_spec c sep) as [->|Hc].
  - destruct (str_split sep s) as [|p ps]; [done|]. simpl in *.
    by rewrite IH.
  - destruct (str_split sep s) as [|p [|q ps]]; [done|..]; simpl in *;
      by rewrite <-IH.
Qed.

Lemma str_split_free_id sep s : free_of sep s → str_split sep s = [s].
Proof.
  induction s as [|c s IH]; simpl; [done|]. intros [Hc Hs].
  destruct (Ascii.eqb_spec c sep) as [->|_]; [done|]. by rewrite IH.
Qed.

Lemma str_split_app sep a b :
  free_of sep a →
  str_split sep (a +:+ String sep b) = a :: str_split sep b.
Proof.
  induction a as [|c a IH]; simpl.
  - intros _. by rewrite Ascii.eqb_refl.
  - intros [Hc Ha]. destruct (Ascii.eqb_spec c sep) as [->|_]; [done|].
    by rewrite IH.
Qed.

Lemma str_split_two s a b :
  str_split comma s = [a; b] ↔
  s = a +:+ "," +:+ b ∧ free_of comma a ∧ free_of comma b.
Proof.
  split.
  - intros Hs. pose proof (str_split_join comma s) as Hj.
    pose proof (str_split_free comma s) as Hf. rewrite Hs in Hj, Hf.
    split; [by rewrite <-Hj|]. inv Hf.
    match goal with H : Forall _ [b] |- _ => inv H end. done.
  - intros (-> & Ha & Hb).
    change ("," +:+ b) with (String comma b).
    by rewrite str_split_app, str_split_free_id.
Qed.

(** The text behind [.split(",")] on the location: gluing the parts with
    commas gives the text back, no part holds a comma, there is always a
    part, and the parts are two exactly when the text is two comma-free
    texts around one comma. *)
Theorem str_split_round_trip s :
  String.concat "," (str_split comma s) = s ∧
  Forall (free_of comma) (str_split comma s) ∧
  str_split comma s ≠ [] ∧
  ∀ a b, str_split comma s = [a; b] ↔
         s = a +:+ "," +:+ b ∧ free_of comma a ∧ free_of comma b.
Proof.
  split; [apply str_split_join|]. split; [apply str_split_free|].
  split; [apply str_split_nonempty|]. intros a b. apply str_split_two.
Qed.

(** ** One fetch, whatever the service does *)

Section MoreFetchFacts.
Context {Float : Type}.
Variable float_of_str : string → option Float.

(** Whatever the service does, a fetch sends one request, to the tracking
    URL of its identifier, and hands back a value: nothing escapes the bare
    [except]. *)
Theorem fetch_live_one_request_no_exception net vin :
  ∃ result,
    fetch_live float_of_str net vin = ([track_url vin], inr result).
Proof. eexists. apply fetch_live_fetched. Qed.

(** When [requests.get] raises (timeout, no connection) the fetch gives
    nothing. *)
Theorem fetch_live_request_raises net vin :
  net (track_url vin) = GetRaises →
  fetch_live float_of_str net vin = ([track_url vin], inr None).
Proof.
  intros Hnet. rewrite fetch_live_fetched. do 2 f_equal.
  destruct (fetched float_of_str net vin) as [r|] eqn:E; [|done].
  apply fetch_live_success in E as (resp & ? & ? & ? & ? & Hn & _).
  congruence.
Qed.

(** A fetch gives a record exactly when the answer has status 200 and a
    dict body whose "location" is one comma between two comma-free texts
    that [float] accepts; the record is then made of the identifier, the two
    floats and the body's "batteryCharge" and "lastUpdated", null when
    absent. *)
Theorem fetch_live_record_iff net vin r :
  fetch_live float_of_str net vin = ([track_url vin], inr (Some r)) ↔
  ∃ resp m a b lat lon,
    net (track_url vin) = GetReturns resp ∧
    status_code resp = 200 ∧
    body resp = Some (JObj m) ∧
    m !! "location" = Some (JStr (a +:+ "," +:+ b)) ∧
    free_of comma a ∧ free_of comma b ∧
    float_of_str a = Some lat ∧
    float_of_str b = Some lon ∧
    r = {| VIN := vin;
           Latitude := lat;
           Longitude := lon;
           Battery := default JNull (m !! "batteryCharge");
           Last_Updated := default JNull (m !! "lastUpdated") |}.
Proof.
  split.
  - intros Hr.
    assert (fetched float_of_str net vin = Some r) as Hgot
      by (unfold fetched; by rewrite Hr).
    apply fetch_live_success in Hgot
      as (resp & m & s & a & b & Hn & Hst & Hb & Hl & Hsp & Ha & Hb' & Hv
          & Hbat & Hup).
    apply str_split_two in Hsp as (-> & Hfa & Hfb).
    exists resp, m, a, b, (Latitude r), (Longitude r).
    repeat (split; [done|]). destruct r; simpl in *. by subst.
  - intros (resp & m & a & b & lat & lon & Hn & Hst & Hb & Hl & Hfa & Hfb
            & Ha & Hb' & ->).
    eapply fetch_live_accepts; eauto. by apply str_split_two.
Qed.

End MoreFetchFacts.

(** ** The list of identifiers *)

Lemma unique_from_sublist seen (l : list string) :
  unique_from seen l `sublist_of` l.
Proof.
  revert seen. induction l as [|x l IH]; intros seen; simpl; [done|].
  case_decide; [by apply sublist_cons|by apply sublist_skip].
Qed.

Lemma unique_from_fresh seen (l : list string) :
  NoDup l → (∀ x, x ∈ l → x ∉ seen) → unique_from seen l = l.
Proof.
  revert seen. induction l as [|x l IH]; intros seen Hnd Hfresh; simpl;
    [done|].
  apply NoDup_cons in Hnd as [Hx Hnd].
  rewrite decide_False by (apply Hfresh; left). f_equal.
  apply IH; [done|]. intros y Hy.
  rewrite not_elem_of_union, not_elem_of_singleton. split.
  - intros ->. done.
  - apply Hfresh. by right.
Qed.

Lemma dropna_all_filled (cells : list string) : dropna (Some <$> cells) = cells.
Proof.
  unfold dropna. induction cells as [|c cells IH]; csimpl; [done|].
  by rewrite IH.
Qed.

Lemma dropna_all_empty (col : list (option string)) :
  Forall (λ c, c = None) col → dropna col = [].
Proof.
  unfold dropna. induction 1 as [|c col -> _ IH]; csimpl; [done|]. exact IH.
Qed.

(** [VIN_LIST] lists identifiers in the order of the sheet: it is what is
    left of the column after striking out empty cells and repetitions, and
    it is the column itself when no cell is empty or repeated. *)
Theorem vin_list_keeps_sheet_order (col : list (option string)) :
  unique (dropna col) `sublist_of` dropna col ∧
  unique (unique (dropna col)) = unique (dropna col) ∧
  ∀ cells, col = Some <$> cells → NoDup cells → unique (dropna col) = cells.
Proof.
  split; [apply unique_from_sublist|]. split.
  - apply unique_from_fresh; [apply unique_NoDup|].
    intros ? _. apply not_elem_of_empty.
  - intros cells -> Hnd. rewrite dropna_all_filled.
    apply unique_from_fresh; [done|]. intros ? _. apply not_elem_of_empty.
Qed.

(** ** The fetch loop *)

Section MoreLoopFacts.
Context {Float : Type}.
Variable float_of_str : string → option Float.

Lemma completed_length (env : Env Float) vins :
  fair env → length (completed env vins) = length vins.
Proof. intros Hfair. by rewrite completed_perm. Qed.

Lemma answered_identifiers net (l : list string) :
  VIN <$> answered float_of_str net l `sublist_of` l.
Proof.
  unfold answered. induction l as [|v l IH]; csimpl; [done|].
  destruct (fetched float_of_str net v) as [r|] eqn:E; csimpl.
  - apply fetch_live_success in E
      as (? & ? & ? & ? & ? & _ & _ & _ & _ & _ & _ & _ & -> & _).
    by apply sublist_skip.
  - by apply sublist_cons.
Qed.

Lemma collected_answered (env : Env Float) vins :
  fair env →
  collected float_of_str env vins ≡ₚ answered float_of_str (network env) vins.
Proof.
  intros Hfair. unfold collected, answered. by rewrite completed_perm.
Qed.

Lemma collected_distinct (env : Env Float) vins :
  fair env → NoDup vins → NoDup (VIN <$> collected float_of_str env vins).
Proof.
  intros Hfair Hnd.
  eapply sublist_NoDup;
    [|exact (answered_identifiers (network env) (completed env vins))].
  by rewrite completed_perm.
Qed.

Lemma collected_fetched (env : Env Float) vins r :
  r ∈ collected float_of_str env vins →
  VIN r ∈ vins ∧ fetched float_of_str (network env) (VIN r) = Some r.
Proof.
  intros (v & Hv & Hr)%collected_elem.
  apply fetch_live_success in Hr as Hs.
  destruct Hs as (? & ? & ? & ? & ? & _ & _ & _ & _ & _ & _ & _ & <- & _).
  done.
Qed.

(** With every future handed over once, the bar stands at 0, then at
    [1/total], [2/total], ... up to [total/total], one step per identifier
    whatever the fetches give; the requests are those of the identifiers. *)
Theorem progress_runs_from_one_to_total env vins :
  fair env →
  (fetch_all float_of_str env vins).1 =
    mkLog (Info "Fetching live vehicle data..."
           :: Progress 0 1
           :: ((λ k, Progress k (length vins)) <$> seq 1 (length vins)))
          (track_url <$> vins).
Proof.
  intros Hfair. rewrite fetch_all_spec. simpl. f_equal. do 2 f_equal.
  unfold progress_bars. rewrite completed_length by done.
  rewrite <-fmap_S_seq, <-list_fmap_compose. apply list_fmap_ext.
  intros _ k _. simpl. by rewrite Nat.add_1_r.
Qed.

(** With every future handed over once, the results are the records of
    the identifiers whose fetch gave one, each once, in the order of
    completion: whichever that order is, the same records are collected. *)
Theorem results_are_the_answers env vins log results :
  fair env →
  fetch_all float_of_str env vins = (log, inr results) →
  results ≡ₚ answered float_of_str (network env) vins ∧
  results =
    answered float_of_str (network env) (completed env vins).
Proof.
  intros Hfair. rewrite fetch_all_spec. intros [= _ <-].
  split; [|done]. by apply collected_answered.
Qed.

(** With every future handed over once and no identifier submitted twice,
    no two results carry the same identifier, every result carries a
    submitted one, and there are at most as many results as identifiers. *)
Theorem results_have_distinct_identifiers env vins log results :
  fair env → NoDup vins →
  fetch_all float_of_str env vins = (log, inr results) →
  NoDup (VIN <$> results) ∧
  (∀ r, r ∈ results → VIN r ∈ vins) ∧
  (length results ≤ length vins)%nat.
Proof.
  intros Hfair Hnd. rewrite fetch_all_spec. intros [= _ <-].
  split; [by apply collected_distinct|]. split.
  - intros r Hr. by apply collected_fetched in Hr as [? _].
  - rewrite <-(completed_length env vins Hfair), <-(length_fmap VIN).
    apply sublist_length.
    exact (answered_identifiers (network env) (completed env vins)).
Qed.

End MoreLoopFacts.

(** ** What the Ranker keeps *)

Section MoreRankFacts.
Context {Float : Type} (float_le : relation Float).
Context `{!Transitive float_le}.

Variable geodesic_km : Float * Float → Float * Float → option Float.
Variable sort_values : list (RankedRow Float) → list (RankedRow Float).
Hypothesis sort_ok : sorts_ascending float_le sort_values.

(** The rows the Ranker keeps are the nearest: the rows it drops are as
    many as exceed thirty, make up the input with its distance column
    together with the kept ones, and none of them is nearer than a kept
    row. *)
Theorem kept_rows_are_the_nearest user results kept :
  rank geodesic_km sort_values user results = Some kept →
  ∃ dropped rows,
    mapM (with_distance geodesic_km user) results = Some rows ∧
    record <$> rows = results ∧
    kept ++ dropped ≡ₚ rows ∧
    length dropped = (length results - 30)%nat ∧
    ∀ x y, x ∈ kept → y ∈ dropped → by_distance float_le x y.
Proof.
  intros (rows & Hrows & ->)%rank_Some.
  destruct (sort_ok rows) as [Hp Hs].
  exists (drop 30 (sort_values rows)), rows.
  split; [done|]. apply assign_Some in Hrows as [Hrec _].
  split; [done|]. rewrite take_drop. split; [done|]. split.
  - by rewrite length_drop, Hp, <-Hrec, length_fmap.
  - intros x y Hx Hy.
    apply Sorted_StronglySorted in Hs;
      [|intros a b c; unfold by_distance; apply transitivity].
    rewrite <-(take_drop 30 (sort_values rows)) in Hs.
    by eapply StronglySorted_app_1_elem_of.
Qed.

(** Every row the Ranker gives is one of the records it was given, with
    the distance from the user's place to that record's own coordinates. *)
Theorem ranked_rows_are_given_records user results out row :
  rank geodesic_km sort_values user results = Some out →
  row ∈ out →
  record row ∈ results ∧
  geodesic_km user (Latitude (record row), Longitude (record row))
  = Some (Distance_km row).
Proof.
  intros Hout Hrow. split.
  - eapply elem_of_submseteq; [|by eapply rank_submseteq].
    apply list_elem_of_fmap. by exists row.
  - pose proof (rank_measured float_le geodesic_km sort_values sort_ok
                  user results out Hout) as Hall.
    rewrite Forall_forall in Hall. by apply Hall.
Qed.

End MoreRankFacts.

(** ** The page, from its first line to its last *)

Section MorePageFacts.
Context {Float : Type}.
Variable float_of_str : string → option Float.
Variable format_fixed : nat → Float → string.
Variable geodesic_km : Float * Float → Float * Float → option Float.
Variable infer_dtype : list (json Float) → list (json Float).
Variable sort_values : list (RankedRow Float) → list (RankedRow Float).

Local Abbreviation page :=
  (script float_of_str format_fixed geodesic_km infer_dtype sort_values).

Lemma script_without_location env :
  geolocation env = None →
  page env =
    (mkLog [Title "🚗 Ola Fleet Live Tracker";
            Warning "📍 Please allow location access and refresh."] [],
     inl Stopped).
Proof.
  intros Hgeo. unfold script, mbind, Script_bind, script_bind, show.
  by rewrite Hgeo.
Qed.

Lemma script_without_file env lat lon :
  geolocation env = Some (lat, lon) → uploaded env = None →
  page env =
    (mkLog [Title "🚗 Ola Fleet Live Tracker";
            Success ("📍 Your Location: " +:+ format_fixed 6 lat
                     +:+ ", " +:+ format_fixed 6 lon);
            Info "Upload Excel file to start tracking."] [],
     inl Stopped).
Proof.
  intros Hgeo Hup. unfold script, mbind, Script_bind, script_bind, show.
  by rewrite Hgeo, Hup.
Qed.

Lemma script_unreadable env lat lon :
  geolocation env = Some (lat, lon) → uploaded env = Some Unreadable →
  page env =
    (mkLog [Title "🚗 Ola Fleet Live Tracker";
            Success ("📍 Your Location: " +:+ format_fixed 6 lat
                     +:+ ", " +:+ format_fixed 6 lon)] [],
     inl (Crashed ExcelReadError)).
Proof.
  intros Hgeo Hup. unfold script, mbind, Script_bind, script_bind, show.
  by rewrite Hgeo, Hup.
Qed.

Lemma script_without_column env lat lon df :
  geolocation env = Some (lat, lon) → uploaded env = Some (Workbook df) →
  df !! "vehicleId" = None →
  page env =
    (mkLog [Title "🚗 Ola Fleet Live Tracker";
            Success ("📍 Your Location: " +:+ format_fixed 6 lat
                     +:+ ", " +:+ format_fixed 6 lon);
            Error "Excel must contain 'vehicleId' column"] [],
     inl Stopped).
Proof.
  intros Hgeo Hup Hcol.
  unfold script, mbind, Script_bind, script_bind, show.
  rewrite Hgeo, Hup. cbv beta iota zeta. unfold pd_read_excel.
  cbv beta iota zeta. unfold mret, Script_ret, script_ret.
  cbv beta iota zeta. by rewrite Hcol.
Qed.

(** Without a location the page shows the request to allow it and stops:
    the upload, the workbook and the service play no part. *)
Theorem no_location_stops_at_once env :
  let run :=
    script float_of_str format_fixed geodesic_km infer_dtype sort_values
      env in
  geolocation env = None →
  run = (mkLog [Title "🚗 Ola Fleet Live Tracker";
                Warning "📍 Please allow location access and refresh."] [],
         inl Stopped).
Proof. intros run. apply script_without_location. Qed.

(** With a location and no uploaded file the page shows the location and
    the invitation to upload, and stops without a request. *)
Theorem no_file_stops_before_reading env lat lon :
  let run :=
    script float_of_str format_fixed geodesic_km infer_dtype sort_values
      env in
  geolocation env = Some (lat, lon) → uploaded env = None →
  run = (mkLog [Title "🚗 Ola Fleet Live Tracker";
                Success ("📍 Your Location: " +:+ format_fixed 6 lat
                         +:+ ", " +:+ format_fixed 6 lon);
                Info "Upload Excel file to start tracking."] [],
         inl Stopped).
Proof. intros run. apply script_without_file. Qed.

(** An exception of [pd.read_excel] is caught nowhere: the run ends with
    it, after the location line, with no error message of the page's own
    and no request. *)
Theorem unreadable_workbook_ends_the_run env lat lon :
  let run :=
    script float_of_str format_fixed geodesic_km infer_dtype sort_values
      env in
  geolocation env = Some (lat, lon) → uploaded env = Some Unreadable →
  run.2 = inl (Crashed ExcelReadError) ∧
  wire run.1 = [] ∧
  filter is_error (screen run.1) = [].
Proof.
  intros run Hgeo Hup. subst run.
  by rewrite (script_unreadable env lat lon).
Qed.

(** A request goes out only when the location is known, the workbook was
    read, and its "vehicleId" column has a cell that is not empty. *)
Theorem requests_need_location_and_column env :
  let run :=
    script float_of_str format_fixed geodesic_km infer_dtype sort_values
      env in
  wire run.1 ≠ [] →
  ∃ lat lon df col vin,
    geolocation env = Some (lat, lon) ∧
    uploaded env = Some (Workbook df) ∧
    df !! "vehicleId" = Some col ∧
    Some vin ∈ col.
Proof.
  intros run Hwire. subst run.
  destruct (geolocation env) as [[lat lon]|] eqn:Hgeo; cycle 1.
  { by rewrite script_without_location in Hwire. }
  destruct (uploaded env) as [[|df]|] eqn:Hup.
  - by rewrite (script_unreadable env lat lon) in Hwire.
  - destruct (df !! "vehicleId") as [col|] eqn:Hcol; cycle 1.
    { by rewrite (script_without_column env lat lon df) in Hwire. }
    rewrite (script_with_column _ _ _ _ _ env lat lon df col) in Hwire by done.
    destruct (unique (dropna col)) as [|vin vins] eqn:Hv.
    { case_decide; [done|]. by case_match. }
    exists lat, lon, df, col, vin. repeat (split; [done|]).
    apply dropna_elem, unique_elem. rewrite Hv. left.
  - by rewrite (script_without_file env lat lon) in Hwire.
Qed.

(** A "vehicleId" column with nothing but empty cells: no identifier, no
    request, no step of the bar (and no division by the zero total); the
    page ends on "No live data received.". *)
Theorem empty_column_stops_without_request env lat lon df col :
  let run :=
    script float_of_str format_fixed geodesic_km infer_dtype sort_values
      env in
  geolocation env = Some (lat, lon) →
  uploaded env = Some (Workbook df) →
  df !! "vehicleId" = Some col →
  Forall (λ c, c = None) col →
  run = (mkLog [Title "🚗 Ola Fleet Live Tracker";
                Success ("📍 Your Location: " +:+ format_fixed 6 lat
                         +:+ ", " +:+ format_fixed 6 lon);
                Info "Fetching live vehicle data...";
                Progress 0 1;
                Error "No live data received."] [],
         inl Stopped).
Proof.
  intros run Hgeo Hup Hcol Hnone. subst run.
  rewrite (script_with_column _ _ _ _ _ env lat lon df col) by done.
  rewrite (dropna_all_empty col Hnone).
  change (unique []) with (@nil string).
  assert (completed env [] = []) as Hc.
  { unfold completed. induction (completion env (length [])); by csimpl. }
  unfold collected, page_head, progress_bars. rewrite Hc. done.
Qed.

End MorePageFacts.

(** ** The table and the map *)

Section RenderFacts.
Context {Float : Type} (float_le : relation Float).
Variable float_of_str : string → option Float.
Variable format_fixed : nat → Float → string.
Variable geodesic_km : Float * Float → Float * Float → option Float.
Variable infer_dtype : list (json Float) → list (json Float).
Variable sort_values : list (RankedRow Float) → list (RankedRow Float).

Local Abbreviation page :=
  (script float_of_str format_fixed geodesic_km infer_dtype sort_values).
Local Abbreviation frame := (pd_DataFrame infer_dtype).

Lemma page_head_plain env lat lon vins e :
  e ∈ page_head format_fixed env lat lon vins → ¬ is_rendering e.
Proof.
  unfold page_head, progress_bars. rewrite elem_of_app, !elem_of_cons.
  rewrite elem_of_nil, list_elem_of_fmap.
  intros [[->|[->|[->|[->|[]]]]]|(k & -> & _)]; by intros [].
Qed.

Lemma pd_DataFrame_lookup results i r' :
  frame results !! i = Some r' ↔
  ∃ r, results !! i = Some r ∧
       r' = {| VIN := VIN r;
               Latitude := Latitude r;
               Longitude := Longitude r;
               Battery :=
                 default (Battery r)
                         (infer_dtype (Battery <$> results) !! i);
               Last_Updated :=
                 default (Last_Updated r)
                         (infer_dtype (Last_Updated <$> results) !! i) |}.
Proof.
  unfold pd_DataFrame. rewrite list_lookup_imap.
  destruct (results !! i) as [r|]; simpl.
  - split; [intros [= <-]; by exists r|]. by intros (? & [= <-] & ->).
  - split; [done|]. by intros (? & ? & _).
Qed.

(** The results are the records of the column's vehicles that answer. *)
Lemma results_answers env col r :
  fair env →
  r ∈ collected float_of_str env (unique (dropna col)) ↔
  ∃ vin, Some vin ∈ col ∧ fetched float_of_str (network env) vin = Some r.
Proof.
  intros Hfair. split.
  - intros (v & Hv & Hgot)%collected_elem. exists v. split; [|done].
    by apply dropna_elem, unique_elem.
  - intros (vin & Hvin & Hgot). unfold collected. apply list_elem_of_omap.
    exists vin. split; [|done]. rewrite completed_perm by done.
    by apply unique_elem, dropna_elem.
Qed.

(** The Ranker fails on the frame when [geodesic] refuses a record. *)
Lemma rank_frame_None user results :
  rank geodesic_km sort_values user (frame results) = None ↔
  ∃ r, r ∈ results ∧ geodesic_km user (Latitude r, Longitude r) = None.
Proof.
  rewrite rank_None, Exists_exists. split.
  - intros (r' & Hr' & Hnone).
    apply pd_DataFrame_row_of in Hr' as (r & Hr & _ & Hlat & Hlon).
    exists r. by rewrite <-Hlat, <-Hlon.
  - intros (r & Hr & Hnone).
    apply (pd_DataFrame_has_row infer_dtype) in Hr
      as (r' & Hr' & _ & Hlat & Hlon).
    exists r'. by rewrite Hlat, Hlon.
Qed.

(** What is rendered, when the column is there. *)
Lemma screen_rendering env lat lon df col e :
  geolocation env = Some (lat, lon) →
  uploaded env = Some (Workbook df) →
  df !! "vehicleId" = Some col →
  is_rendering e →
  let results := collected float_of_str env (unique (dropna col)) in
  e ∈ screen (page env).1 ↔
  ∃ TOP,
    results ≠ [] ∧
    rank geodesic_km sort_values (lat, lon) (frame results) = Some TOP ∧
    (e = Dataframe TOP ∨
     e = Folium (UserMarker lat lon :: (VehicleMarker <$> TOP))).
Proof.
  intros Hgeo Hup Hcol He results.
  rewrite (script_with_column _ _ _ _ _ env lat lon df col) by done.
  fold results. case_decide as Hlen.
  { cbn [fst screen]. rewrite elem_of_app, list_elem_of_singleton. split.
    - intros [Hin| ->]; [by apply page_head_plain in Hin|by destruct He].
    - intros (TOP & Hne & _). by destruct results. }
  destruct (rank geodesic_km sort_values (lat, lon) (frame results))
    as [TOP|] eqn:Hrank; cbn [fst screen].
  - rewrite elem_of_app, !elem_of_cons, elem_of_nil. split.
    + intros [Hin|[->|[->|[->|[->|[->|[]]]]]]];
        try (by destruct He); [by apply page_head_plain in Hin|..];
        exists TOP; (split; [by intros ->|]); (split; [done|]);
        [by left|by right].
    + intros (? & _ & [= <-] & [->| ->]); right; [by right; left|].
      by right; right; right; left.
  - split; [by intros Hin%page_head_plain|]. by intros (? & _ & ? & _).
Qed.

(** Once the column is there and every future is handed over, the run
    ends in one of three ways.  It stops on "No live data received."
    exactly when no cell of the column names a vehicle whose fetch gives a
    record; it fails on the error of [geodesic] exactly when some such
    record has coordinates that [geodesic] refuses; it renders the page to
    its last line exactly when there are such records and [geodesic]
    refuses none. *)
Theorem page_rendered_iff_some_answer env lat lon df col :
  let run :=
    script float_of_str format_fixed geodesic_km infer_dtype sort_values
      env in
  let answers vin r :=
    Some vin ∈ col ∧ fetched float_of_str (network env) vin = Some r in
  let refused r :=
    geodesic_km (lat, lon) (Latitude r, Longitude r) = None in
  geolocation env = Some (lat, lon) →
  uploaded env = Some (Workbook df) →
  df !! "vehicleId" = Some col →
  fair env →
  (run.2 = inl Stopped ↔ ¬ ∃ vin r, answers vin r) ∧
  (run.2 = inl (Crashed ValueError) ↔ ∃ vin r, answers vin r ∧ refused r) ∧
  (run.2 = inr () ↔
   (∃ vin r, answers vin r) ∧ ∀ vin r, answers vin r → ¬ refused r) ∧
  (run.2 = inr () →
   last (screen run.1) = Some (Success "✅ Live tracking complete")).
Proof.
  intros run answers refused Hgeo Hup Hcol Hfair. subst run answers refused.
  cbv beta.
  rewrite (script_with_column _ _ _ _ _ env lat lon df col) by done.
  set (results := collected float_of_str env (unique (dropna col))).
  assert (∀ r, r ∈ results ↔
               ∃ vin, Some vin ∈ col ∧
                      fetched float_of_str (network env) vin = Some r)
    as Hres by (intros r; by apply results_answers).
  case_decide as Hlen.
  { assert (results = []) as Hnil by by destruct results.
    assert (¬ ∃ vin r, Some vin ∈ col ∧
                       fetched float_of_str (network env) vin = Some r)
      as Hno.
    { intros (vin & r & Hans).
      assert (r ∈ results) as Hr by (apply Hres; by exists vin).
      rewrite Hnil in Hr. by apply elem_of_nil in Hr. }
    cbn [fst snd screen]. split; [done|]. split.
    - split; [done|]. intros (vin & r & Hans & _). destruct Hno. eauto.
    - split; [|done]. split; [done|]. by intros [Hex _]. }
  assert (∃ vin r, Some vin ∈ col ∧
                   fetched float_of_str (network env) vin = Some r) as Hsome.
  { destruct results as [|r k] eqn:E; [done|].
    assert (r ∈ r :: k) as Hr by left. apply Hres in Hr as (vin & Hans).
    by exists vin, r. }
  destruct (rank geodesic_km sort_values (lat, lon) (frame results))
    as [TOP|] eqn:Hrank; cbn [fst snd screen].
  - assert (∀ r, r ∈ results →
                 geodesic_km (lat, lon) (Latitude r, Longitude r) ≠ None)
      as Hfine.
    { intros r Hr Hnone.
      assert (rank geodesic_km sort_values (lat, lon) (frame results) = None)
        as Hbad by (apply rank_frame_None; by exists r).
      by rewrite Hrank in Hbad. }
    split; [done|]. split; [|split].
    + split; [done|]. intros (vin & r & Hans & Hnone).
      destruct (Hfine r); [|done]. apply Hres. by exists vin.
    + split; [|done]. intros _. split; [done|].
      intros vin r Hans. apply Hfine, Hres. by exists vin.
    + intros _. by rewrite last_app.
  - apply rank_frame_None in Hrank as (r & Hr & Hnone).
    apply Hres in Hr as (vin & Hans).
    split; [done|]. split; [|split; [|done]].
    + split; [|done]. intros _. by exists vin, r.
    + split; [done|]. intros [_ Hall]. by destruct (Hall vin r).
Qed.

(** The table that is shown, when one is: between one and thirty rows, as
    many as the sheet's identifiers gave records up to thirty, in ascending
    order of distance, no vehicle twice; each row has the identifier of a
    cell of the column, the coordinates of the record fetched for it, the
    distance from the user's place to these coordinates, and for battery
    and last update the cells that the frame's type inference made of the
    fetched ones. *)
Theorem shown_table_rows env lat lon df col rows :
  let run :=
    script float_of_str format_fixed geodesic_km infer_dtype sort_values
      env in
  let results := collected float_of_str env (unique (dropna col)) in
  geolocation env = Some (lat, lon) →
  uploaded env = Some (Workbook df) →
  df !! "vehicleId" = Some col →
  fair env →
  sorts_ascending float_le sort_values →
  Dataframe rows ∈ screen run.1 →
  (0 < length rows ≤ 30)%nat ∧
  length rows
  = (30 `min` length (answered float_of_str (network env)
                        (unique (dropna col))))%nat ∧
  Sorted (by_distance float_le) rows ∧
  NoDup (VIN ∘ record <$> rows) ∧
  ∀ row, row ∈ rows →
    Some (VIN (record row)) ∈ col ∧
    geodesic_km (lat, lon) (Latitude (record row), Longitude (record row))
    = Some (Distance_km row) ∧
    ∃ i r,
      results !! i = Some r ∧
      fetched float_of_str (network env) (VIN (record row)) = Some r ∧
      Latitude (record row) = Latitude r ∧
      Longitude (record row) = Longitude r ∧
      Battery (record row)
      = default (Battery r) (infer_dtype (Battery <$> results) !! i) ∧
      Last_Updated (record row)
      = default (Last_Updated r)
                (infer_dtype (Last_Updated <$> results) !! i).
Proof.
  intros run results Hgeo Hup Hcol Hfair Hsort Hshown. subst run.
  apply (screen_rendering env lat lon df col) in Hshown; [|done..].
  destruct Hshown as (TOP & Hne & Hrank & [[= ->]|[=]]).
  fold results in Hne, Hrank.
  pose proof (rank_length float_le geodesic_km sort_values Hsort
                (lat, lon) (frame results) TOP Hrank) as Hlen.
  pose proof (rank_submseteq float_le geodesic_km sort_values Hsort
                (lat, lon) (frame results) TOP Hrank) as Hsub.
  pose proof (rank_measured float_le geodesic_km sort_values Hsort
                (lat, lon) (frame results) TOP Hrank) as Hdist.
  rewrite length_pd_DataFrame in Hlen.
  assert (length results
          = length (answered float_of_str (network env)
                      (unique (dropna col)))) as Hsame
    by (unfold results; by rewrite collected_answered).
  split; [|split; [|split; [|split]]].
  - assert (length results ≠ 0%nat) as Hpos
      by (intros H0; by apply Hne, nil_length_inv).
    rewrite Hlen. lia.
  - by rewrite Hlen, Hsame.
  - by eapply rank_sorted.
  - assert (VIN ∘ record <$> TOP ⊆+ VIN <$> results) as Hids.
    { rewrite <-(pd_DataFrame_VIN infer_dtype), list_fmap_compose.
      by apply fmap_submseteq. }
    apply submseteq_Permutation in Hids as [k Hk].
    assert (NoDup (VIN <$> results)) as Hnd
      by (apply collected_distinct; [done|apply unique_NoDup]).
    rewrite Hk in Hnd. by apply NoDup_app in Hnd as [? _].
  - intros row Hrow.
    assert (record row ∈ frame results) as Hin.
    { eapply elem_of_submseteq; [|done]. apply list_elem_of_fmap.
      by exists row. }
    apply list_elem_of_lookup in Hin as [i Hi].
    apply pd_DataFrame_lookup in Hi as (r & Hr & Hrow').
    assert (r ∈ results) as Hres by by eapply list_elem_of_lookup_2.
    apply collected_fetched in Hres as [Hv Hgot].
    rewrite Forall_forall in Hdist.
    assert (VIN (record row) = VIN r) as Hvin by by rewrite Hrow'.
    rewrite Hvin. split; [by apply dropna_elem, unique_elem|].
    split; [by apply Hdist|].
    exists i, r. rewrite Hrow'. done.
Qed.

(** The map that is shown, when one is, carries the user's marker first and
    then one marker per row of the table, in the table's order. *)
Theorem shown_map_follows_table env lat lon df col markers :
  let run :=
    script float_of_str format_fixed geodesic_km infer_dtype sort_values
      env in
  geolocation env = Some (lat, lon) →
  uploaded env = Some (Workbook df) →
  df !! "vehicleId" = Some col →
  Folium markers ∈ screen run.1 →
  ∃ rows, Dataframe rows ∈ screen run.1 ∧
          markers = UserMarker lat lon :: (VehicleMarker <$> rows).
Proof.
  intros run Hgeo Hup Hcol Hshown. subst run.
  apply (screen_rendering env lat lon df col) in Hshown; [|done..].
  destruct Hshown as (TOP & Hne & Hrank & [[=]|[= ->]]).
  exists TOP. split; [|done].
  apply (screen_rendering env lat lon df col); [done..|].
  exists TOP. split; [done|]. split; [done|]. by left.
Qed.

End RenderFacts.

(** * The further statements at work on the small instance *)

(** A vehicle the service does not answer for. *)
Lemma fetch_live_request_raises_witness :
  Demo.service (track_url "V9") = GetRaises ∧
  fetch_live Demo.float_of_str Demo.service "V9"
  = ([track_url "V9"], inr None).
Proof.
  split; [reflexivity|].
  exact (fetch_live_request_raises Demo.float_of_str Demo.service "V9"
           eq_refl).
Defined.

(** Three identifiers, of which the second gets a 404. *)
Lemma progress_runs_from_one_to_total_witness :
  let env := Demo.env None in
  fair env ∧
  (fetch_all Demo.float_of_str env ["V1"; "V3"; "V7"]).1 =
    mkLog [Info "Fetching live vehicle data..."; Progress 0 1;
           Progress 1 3; Progress 2 3; Progress 3 3]
          [track_url "V1"; track_url "V3"; track_url "V7"].
Proof.
  intros env. split; [apply demo_fair|].
  exact (progress_runs_from_one_to_total Demo.float_of_str env
           ["V1"; "V3"; "V7"] (demo_fair _)).
Defined.

(** The same three identifiers, completing last first. *)
Lemma results_are_the_answers_witness :
  let env :=
    {| geolocation := Some Demo.here; uploaded := None;
       network := Demo.service;
       completion := λ n, reverse (seq 0 n) |} in
  let vins := ["V1"; "V3"; "V7"] in
  let r7 :=
    {| VIN := "V7"; Latitude := 13000000; Longitude := 77500000;
       Battery := JInt 80; Last_Updated := JStr "2024-05-01 10:00" |} in
  let results := [r7; Demo.parked "V1"] in
  let log := (fetch_all Demo.float_of_str env vins).1 in
  fair env ∧
  fetch_all Demo.float_of_str env vins = (log, inr results) ∧
  results ≡ₚ answered Demo.float_of_str Demo.service vins ∧
  results = answered Demo.float_of_str Demo.service (completed env vins).
Proof.
  intros env vins r7 results log.
  assert (fair env) as Hfair by (intros n; apply reverse_Permutation).
  assert (fetch_all Demo.float_of_str env vins = (log, inr results)) as Hout
    by reflexivity.
  split; [exact Hfair|]. split; [exact Hout|].
  exact (results_are_the_answers Demo.float_of_str env vins log results
           Hfair Hout).
Defined.

Lemma results_have_distinct_identifiers_witness :
  let env := Demo.env None in
  let vins := ["V1"; "V3"; "V7"] in
  let r7 :=
    {| VIN := "V7"; Latitude := 13000000; Longitude := 77500000;
       Battery := JInt 80; Last_Updated := JStr "2024-05-01 10:00" |} in
  let results := [Demo.parked "V1"; r7] in
  let log := (fetch_all Demo.float_of_str env vins).1 in
  fair env ∧ NoDup vins ∧
  fetch_all Demo.float_of_str env vins = (log, inr results) ∧
  NoDup (VIN <$> results) ∧
  (∀ r, r ∈ results → VIN r ∈ vins) ∧
  (length results ≤ length vins)%nat.
Proof.
  intros env vins r7 results log.
  assert (NoDup vins) as Hnd.
  { unfold vins. repeat constructor; rewrite ?elem_of_cons, ?elem_of_nil;
      intros H; repeat destruct H as [H|H]; done. }
  assert (fetch_all Demo.float_of_str env vins = (log, inr results)) as Hout
    by reflexivity.
  split; [apply demo_fair|]. split; [exact Hnd|]. split; [exact Hout|].
  exact (results_have_distinct_identifiers Demo.float_of_str env vins
           log results (demo_fair _) Hnd Hout).
Defined.

(** Thirty-one vehicles at thirty-one different distances, the farthest
    first: it is the one left out. *)
Lemma kept_rows_are_the_nearest_witness :
  let fleet := Demo.fleet 31 in
  Transitive Z.le ∧
  sorts_ascending Z.le Demo.sort_values ∧
  ∃ kept,
    rank Demo.geodesic_km Demo.sort_values Demo.here fleet = Some kept ∧
    ∃ dropped rows,
      mapM (with_distance Demo.geodesic_km Demo.here) fleet = Some rows ∧
      record <$> rows = fleet ∧
      kept ++ dropped ≡ₚ rows ∧
      length dropped = 1%nat ∧
      ∀ x y, x ∈ kept → y ∈ dropped → by_distance Z.le x y.
Proof.
  intros fleet. split; [apply _|]. split; [apply demo_sort_ascending|].
  pose (kept := default [] (rank Demo.geodesic_km Demo.sort_values Demo.here
                              fleet)).
  assert (rank Demo.geodesic_km Demo.sort_values Demo.here fleet = Some kept)
    as Hrank by (vm_compute; reflexivity).
  exists kept. split; [exact Hrank|].
  exact (kept_rows_are_the_nearest Z.le Demo.geodesic_km Demo.sort_values
           demo_sort_ascending Demo.here fleet kept Hrank).
Defined.

(** A vehicle on the road and one at the depot. *)
Lemma ranked_rows_are_given_records_witness :
  let r7 :=
    {| VIN := "V7"; Latitude := 13000000; Longitude := 77500000;
       Battery := JInt 80; Last_Updated := JStr "2024-05-01 10:00" |} in
  let fleet := [r7; Demo.parked "V1"] in
  let out := [mkRow (Demo.parked "V1") 0; mkRow r7 200000] in
  let row := mkRow r7 200000 in
  sorts_ascending Z.le Demo.sort_values ∧
  rank Demo.geodesic_km Demo.sort_values Demo.here fleet = Some out ∧
  row ∈ out ∧
  record row ∈ fleet ∧
  Demo.geodesic_km Demo.here (Latitude (record row), Longitude (record row))
  = Some (Distance_km row).
Proof.
  intros r7 fleet out row.
  assert (rank Demo.geodesic_km Demo.sort_values Demo.here fleet = Some out)
    as Hout by reflexivity.
  assert (row ∈ out) as Hrow by (right; left).
  split; [apply demo_sort_ascending|]. split; [exact Hout|].
  split; [exact Hrow|].
  exact (ranked_rows_are_given_records Z.le Demo.geodesic_km
           Demo.sort_values demo_sort_ascending Demo.here fleet out row
           Hout Hrow).
Defined.

Lemma no_location_stops_at_once_witness :
  let env :=
    {| geolocation := None;
       uploaded := Some (Workbook (Demo.sheet [Some "V1"]));
       network := Demo.service;
       completion := λ n, seq 0 n |} in
  geolocation env = None ∧
  script Demo.float_of_str Demo.format_fixed Demo.geodesic_km
    Demo.infer_dtype Demo.sort_values env
  = (mkLog [Title "🚗 Ola Fleet Live Tracker";
            Warning "📍 Please allow location access and refresh."] [],
     inl Stopped).
Proof.
  intros env. split; [reflexivity|].
  exact (no_location_stops_at_once Demo.float_of_str Demo.format_fixed
           Demo.geodesic_km Demo.infer_dtype
           Demo.sort_values env eq_refl).
Defined.

Lemma no_file_stops_before_reading_witness :
  let env := Demo.env None in
  geolocation env = Some Demo.here ∧ uploaded env = None ∧
  Demo.run None
  = (mkLog [Title "🚗 Ola Fleet Live Tracker";
            Success ("📍 Your Location: " +:+ Demo.format_fixed 6 12900000
                     +:+ ", " +:+ Demo.format_fixed 6 77600000);
            Info "Upload Excel file to start tracking."] [],
     inl Stopped).
Proof.
  intros env. split; [reflexivity|]. split; [reflexivity|].
  exact (no_file_stops_before_reading Demo.float_of_str Demo.format_fixed
           Demo.geodesic_km Demo.infer_dtype
           Demo.sort_values env _ _ eq_refl eq_refl).
Defined.

Lemma unreadable_workbook_ends_the_run_witness :
  let env := Demo.env (Some Unreadable) in
  geolocation env = Some Demo.here ∧ uploaded env = Some Unreadable ∧
  (Demo.run (Some Unreadable)).2 = inl (Crashed ExcelReadError) ∧
  wire (Demo.run (Some Unreadable)).1 = [] ∧
  filter is_error (screen (Demo.run (Some Unreadable)).1) = [].
Proof.
  intros env. split; [reflexivity|]. split; [reflexivity|].
  exact (unreadable_workbook_ends_the_run Demo.float_of_str
           Demo.format_fixed Demo.geodesic_km Demo.infer_dtype
           Demo.sort_values env _ _
           eq_refl eq_refl).
Defined.

Lemma requests_need_location_and_column_witness :
  let file := Some (Workbook (Demo.sheet [None; Some "V3"])) in
  let env := Demo.env file in
  wire (Demo.run file).1 ≠ [] ∧
  ∃ lat lon df col vin,
    geolocation env = Some (lat, lon) ∧
    uploaded env = Some (Workbook df) ∧
    df !! "vehicleId" = Some col ∧
    Some vin ∈ col.
Proof.
  intros file env.
  assert (wire (Demo.run file).1 ≠ []) as Hwire by discriminate.
  split; [exact Hwire|].
  exact (requests_need_location_and_column Demo.float_of_str
           Demo.format_fixed Demo.geodesic_km Demo.infer_dtype
           Demo.sort_values env Hwire).
Defined.

Lemma empty_column_stops_without_request_witness :
  let col : list (option string) := [None; None] in
  let file := Some (Workbook (Demo.sheet col)) in
  let env := Demo.env file in
  geolocation env = Some Demo.here ∧
  uploaded env = Some (Workbook (Demo.sheet col)) ∧
  Demo.sheet col !! "vehicleId" = Some col ∧
  Forall (λ c, c = None) col ∧
  Demo.run file
  = (mkLog [Title "🚗 Ola Fleet Live Tracker";
            Success ("📍 Your Location: " +:+ Demo.format_fixed 6 12900000
                     +:+ ", " +:+ Demo.format_fixed 6 77600000);
            Info "Fetching live vehicle data...";
            Progress 0 1;
            Error "No live data received."] [],
     inl Stopped).
Proof.
  intros col file env.
  assert (Demo.sheet col !! "vehicleId" = Some col) as Hcol by reflexivity.
  assert (Forall (λ c, c = None) col) as Hnone by (by repeat constructor).
  split; [reflexivity|]. split; [reflexivity|]. split; [exact Hcol|].
  split; [exact Hnone|].
  exact (empty_column_stops_without_request Demo.float_of_str
           Demo.format_fixed Demo.geodesic_km Demo.infer_dtype
           Demo.sort_values env _ _
           (Demo.sheet col) col eq_refl eq_refl Hcol Hnone).
Defined.

(** A sheet with a vehicle at the depot, one the service answers 404 for,
    and one on the road: the page is rendered.  With a vehicle that
    reports latitude 91 in place of the last, the run fails. *)
Lemma page_rendered_iff_some_answer_witness :
  (let col := [Some "V1"; Some "V3"; Some "V7"] in
   let file := Some (Workbook (Demo.sheet col)) in
   let env := Demo.env file in
   geolocation env = Some Demo.here ∧
   uploaded env = Some (Workbook (Demo.sheet col)) ∧
   Demo.sheet col !! "vehicleId" = Some col ∧
   fair env ∧
   (Demo.run file).2 = inr () ∧
   (∃ vin r, Some vin ∈ col ∧
             fetched Demo.float_of_str (network env) vin = Some r) ∧
   (∀ vin r, Some vin ∈ col ∧
             fetched Demo.float_of_str (network env) vin = Some r →
             Demo.geodesic_km Demo.here (Latitude r, Longitude r) ≠ None) ∧
   last (screen (Demo.run file).1)
   = Some (Success "✅ Live tracking complete")) ∧
  (let col := [Some "V1"; Some "V3"; Some "V8"] in
   let file := Some (Workbook (Demo.sheet col)) in
   let env := Demo.env file in
   geolocation env = Some Demo.here ∧
   uploaded env = Some (Workbook (Demo.sheet col)) ∧
   Demo.sheet col !! "vehicleId" = Some col ∧
   fair env ∧
   (Demo.run file).2 = inl (Crashed ValueError) ∧
   ∃ vin r, (Some vin ∈ col ∧
             fetched Demo.float_of_str (network env) vin = Some r) ∧
            Demo.geodesic_km Demo.here (Latitude r, Longitude r) = None) ∧
  (let col := [Some "V3"; None; Some "V5"] in
   let file := Some (Workbook (Demo.sheet col)) in
   let env := Demo.env file in
   geolocation env = Some Demo.here ∧
   uploaded env = Some (Workbook (Demo.sheet col)) ∧
   Demo.sheet col !! "vehicleId" = Some col ∧
   fair env ∧
   (Demo.run file).2 = inl Stopped ∧
   ¬ ∃ vin r, Some vin ∈ col ∧
              fetched Demo.float_of_str (network env) vin = Some r).
Proof.
  split; [|split].
  - intros col file env.
    assert (Demo.sheet col !! "vehicleId" = Some col) as Hcol by reflexivity.
    destruct (page_rendered_iff_some_answer Demo.float_of_str
                Demo.format_fixed Demo.geodesic_km Demo.infer_dtype
                Demo.sort_values env _ _ (Demo.sheet col) col
                eq_refl eq_refl Hcol (demo_fair _))
      as (_ & _ & Hpage & Hlast).
    assert ((Demo.run file).2 = inr ()) as Hrun by reflexivity.
    destruct (proj1 Hpage Hrun) as [Hsome Hfine].
    split; [reflexivity|]. split; [reflexivity|]. split; [exact Hcol|].
    split; [apply demo_fair|]. split; [exact Hrun|].
    split; [exact Hsome|]. split; [exact Hfine|]. exact (Hlast Hrun).
  - intros col file env.
    assert (Demo.sheet col !! "vehicleId" = Some col) as Hcol by reflexivity.
    destruct (page_rendered_iff_some_answer Demo.float_of_str
                Demo.format_fixed Demo.geodesic_km Demo.infer_dtype
                Demo.sort_values env _ _ (Demo.sheet col) col
                eq_refl eq_refl Hcol (demo_fair _))
      as (_ & Hcrash & _ & _).
    assert ((Demo.run file).2 = inl (Crashed ValueError)) as Hrun
      by reflexivity.
    split; [reflexivity|]. split; [reflexivity|]. split; [exact Hcol|].
    split; [apply demo_fair|]. split; [exact Hrun|].
    exact (proj1 Hcrash Hrun).
  - intros col file env.
    assert (Demo.sheet col !! "vehicleId" = Some col) as Hcol by reflexivity.
    destruct (page_rendered_iff_some_answer Demo.float_of_str
                Demo.format_fixed Demo.geodesic_km Demo.infer_dtype
                Demo.sort_values env _ _ (Demo.sheet col) col
                eq_refl eq_refl Hcol (demo_fair _))
      as (Hstop & _ & _ & _).
    assert ((Demo.run file).2 = inl Stopped) as Hrun by reflexivity.
    split; [reflexivity|]. split; [reflexivity|]. split; [exact Hcol|].
    split; [apply demo_fair|]. split; [exact Hrun|].
    exact (proj1 Hstop Hrun).
Defined.

(** The same sheet: the battery column of the frame has a gap and a whole
    number, which the table shows as a float. *)
Lemma shown_table_rows_witness :
  let col := [Some "V1"; Some "V3"; Some "V7"] in
  let file := Some (Workbook (Demo.sheet col)) in
  let env := Demo.env file in
  let r7 :=
    {| VIN := "V7"; Latitude := 13000000; Longitude := 77500000;
       Battery := JInt 80; Last_Updated := JStr "2024-05-01 10:00" |} in
  let shown7 :=
    {| VIN := "V7"; Latitude := 13000000; Longitude := 77500000;
       Battery := JFloat 80000000;
       Last_Updated := JStr "2024-05-01 10:00" |} in
  let results := [Demo.parked "V1"; r7] in
  let rows := [mkRow (Demo.parked "V1") 0; mkRow shown7 200000] in
  geolocation env = Some Demo.here ∧
  uploaded env = Some (Workbook (Demo.sheet col)) ∧
  Demo.sheet col !! "vehicleId" = Some col ∧
  fair env ∧
  sorts_ascending Z.le Demo.sort_values ∧
  collected Demo.float_of_str env (unique (dropna col)) = results ∧
  Dataframe rows ∈ screen (Demo.run file).1 ∧
  (0 < length rows ≤ 30)%nat ∧
  length rows
  = (30 `min` length (answered Demo.float_of_str (network env)
                        (unique (dropna col))))%nat ∧
  Sorted (by_distance Z.le) rows ∧
  NoDup (VIN ∘ record <$> rows) ∧
  ∀ row, row ∈ rows →
    Some (VIN (record row)) ∈ col ∧
    Demo.geodesic_km Demo.here
      (Latitude (record row), Longitude (record row))
    = Some (Distance_km row) ∧
    ∃ i r,
      results !! i = Some r ∧
      fetched Demo.float_of_str (network env) (VIN (record row)) = Some r ∧
      Latitude (record row) = Latitude r ∧
      Longitude (record row) = Longitude r ∧
      Battery (record row)
      = default (Battery r) (Demo.infer_dtype (Battery <$> results) !! i) ∧
      Last_Updated (record row)
      = default (Last_Updated r)
                (Demo.infer_dtype (Last_Updated <$> results) !! i).
Proof.
  intros col file env r7 shown7 results rows.
  assert (Demo.sheet col !! "vehicleId" = Some col) as Hcol by reflexivity.
  assert (Dataframe rows ∈ screen (Demo.run file).1) as Hshown.
  { change (screen (Demo.run file).1) with
      ([Title "🚗 Ola Fleet Live Tracker";
        Success ("📍 Your Location: " +:+ Demo.format_fixed 6 12900000
                 +:+ ", " +:+ Demo.format_fixed 6 77600000);
        Info "Fetching live vehicle data...";
        Progress 0 1; Progress 1 3; Progress 2 3; Progress 3 3;
        Subheader "📋 Top 30 Nearest Vehicles";
        Dataframe rows;
        Subheader "🗺 Vehicle Map";
        Folium (UserMarker 12900000 77600000 :: (VehicleMarker <$> rows));
        Success "✅ Live tracking complete"]).
    do 8 right. left. }
  split; [reflexivity|]. split; [reflexivity|]. split; [exact Hcol|].
  split; [apply demo_fair|]. split; [apply demo_sort_ascending|].
  split; [reflexivity|]. split; [exact Hshown|].
  exact (shown_table_rows Z.le Demo.float_of_str Demo.format_fixed
           Demo.geodesic_km Demo.infer_dtype Demo.sort_values env _ _
           (Demo.sheet col) col rows eq_refl eq_refl Hcol (demo_fair _)
           demo_sort_ascending Hshown).
Defined.

Lemma shown_map_follows_table_witness :
  let col := [Some "V1"; Some "V3"] in
  let file := Some (Workbook (Demo.sheet col)) in
  let env := Demo.env file in
  let rows := [mkRow (Demo.parked "V1") 0] in
  let markers := UserMarker 12900000 77600000 :: (VehicleMarker <$> rows) in
  geolocation env = Some Demo.here ∧
  uploaded env = Some (Workbook (Demo.sheet col)) ∧
  Demo.sheet col !! "vehicleId" = Some col ∧
  Folium markers ∈ screen (Demo.run file).1 ∧
  ∃ rows', Dataframe rows' ∈ screen (Demo.run file).1 ∧
           markers = UserMarker 12900000 77600000 :: (VehicleMarker <$> rows').
Proof.
  intros col file env rows markers.
  assert (Demo.sheet col !! "vehicleId" = Some col) as Hcol by reflexivity.
  assert (Folium markers ∈ screen (Demo.run file).1) as Hshown.
  { change (screen (Demo.run file).1) with
      ([Title "🚗 Ola Fleet Live Tracker";
        Success ("📍 Your Location: " +:+ Demo.format_fixed 6 12900000
                 +:+ ", " +:+ Demo.format_fixed 6 77600000);
        Info "Fetching live vehicle data...";
        Progress 0 1; Progress 1 2; Progress 2 2;
        Subheader "📋 Top 30 Nearest Vehicles";
        Dataframe rows;
        Subheader "🗺 Vehicle Map";
        Folium markers;
        Success "✅ Live tracking complete"]).
    do 9 right. left. }
  split; [reflexivity|]. split; [reflexivity|]. split; [exact Hcol|].
  split; [exact Hshown|].
  exact (shown_map_follows_table Demo.float_of_str Demo.format_fixed
           Demo.geodesic_km Demo.infer_dtype
           Demo.sort_values env _ _ (Demo.sheet col) col
           markers eq_refl eq_refl Hcol Hshown).
Defined.
